(** * Return-lag engines of Returns-Insight-Pro: a shallow embedding

    This development embeds the two analysis engines of the repository,
    [analyzeMaturity] (maturityAnalyzer, lag distribution, cohort projection,
    roll-up) and [analyzeContrast] (contrastAnalyzer, the fairness-matched
    before/after comparison), and proves properties of them.

    Modelling conventions.
    - A calendar date "YYYY-MM-DD" is parsed by [new Date(..)] as UTC
      midnight, so every timestamp the engines handle is a whole number of
      days times [MS_PER_DAY]. We represent a date by its day number since
      1970-01-01 (a [Z]); [Math.floor((a - b) / MS_PER_DAY)] on two such
      timestamps is then exactly [a - b], and comparing the ISO date strings
      with [===] is comparing the day numbers.
    - Unit counts ([units_sold], [units_returned]) are non-negative integers
      ([N]); an absent or empty field is [None].
    - Rates and fractions are exact rationals ([Q]) instead of IEEE doubles.
    - [Math.floor(n * 0.2)], [0.5], [0.9], [0.95] on a sample count [n] are
      [n * 2 / 10], [n / 2], [n * 9 / 10], [n * 95 / 100]: the double nearest
      to each constant is off by less than half an ulp of any product, so the
      floors agree for every array length. *)

From Stdlib Require Import NArith ZArith QArith Qminmax List Permutation Sorted Bool Lia Lqa.
Import ListNotations.

Open Scope Z_scope.

(** ** Input records (types.ts) *)

Record RawOrderRow := {
  order_id : nat;
  purchase_date : Z;
  return_date : option Z;
  units_sold : N;
  units_returned : option N
}.

(** [AppData] restricted to the fields the engines read. [t0Date = None]
    stands for a missing or empty cutoff string, [comparisonSpan = None] for
    an undefined span. *)
Record AppData := {
  return_order : option (list RawOrderRow);
  t0Date : option Z;
  comparisonSpan : option Z
}.

(** ** Shared helpers *)

(** [getReturnCount] (maturityAnalyzer; the contrast engine has an
    identical local copy). *)
Definition getReturnCount (o : RawOrderRow) : N :=
  match units_returned o with
  | Some u => if (0 <? u)%N then u
              else match return_date o with Some _ => units_sold o | None => 0%N end
  | None => match return_date o with Some _ => units_sold o | None => 0%N end
  end.

(** S: [let maxTime = 0; forEach: if (t > maxTime) maxTime = t]. *)
Definition latestPurchase (orders : list RawOrderRow) : Z :=
  fold_left (fun m o => if purchase_date o >? m then purchase_date o else m)
            orders 0.

Definition QN (n : N) : Q := inject_Z (Z.of_N n).

Definition sumN (l : list N) : N := fold_right N.add 0%N l.

Definition Qltb (x y : Q) : bool := negb (Qle_bool y x).

(** The rate formula of the claims: returns over sales, 0 on no sales. *)
Definition rateOf (num : Q) (den : N) : Q :=
  if (den =? 0)%N then 0%Q else (num / QN den)%Q.

(** [Array.prototype.sort] with a comparator, as the stable insertion sort
    the engines rely on: [cmp x y < 0] puts [x] first. *)
Section Sort.
Context {A : Type} (cmp : A -> A -> Z).

Fixpoint insert_by (x : A) (l : list A) : list A :=
  match l with
  | [] => [x]
  | y :: ys => if cmp x y <? 0 then x :: y :: ys else y :: insert_by x ys
  end.

Definition sort_by (l : list A) : list A :=
  fold_left (fun acc x => insert_by x acc) l [].
End Sort.

(** ** Lag Distribution Builder (maturityAnalyzer, steps 2-5) *)

Module Lag.

(** Baseline window [T0 - 60d, T0). *)
Definition inBaseline (t0 : Z) (o : RawOrderRow) : bool :=
  (t0 - 60 <=? purchase_date o) && (purchase_date o <? t0).

Definition preSubset (orders : list RawOrderRow) (t0 : Z) : list RawOrderRow :=
  filter (inBaseline t0) orders.

(** The samples one baseline row pushes. *)
Definition pushLags (o : RawOrderRow) : list Z :=
  let rCount := getReturnCount o in
  match return_date o with
  | Some r =>
      if (0 <? rCount)%N then
        let diffDays := r - purchase_date o in
        if diffDays >=? 0 then repeat diffDays (N.to_nat rCount) else []
      else []
  | None => []
  end.

(** [lags], after [lags.sort((a, b) => a - b)]. *)
Definition lags (orders : list RawOrderRow) (t0 : Z) : list Z :=
  sort_by (fun a b => a - b) (flat_map pushLags (preSubset orders t0)).

Definition pctIndex (n num den : Z) : nat := Z.to_nat (n * num / den).

Record Markers := { d_value : Z; p20_value : Z; p90_value : Z }.

(** Step 4: raw markers, then the clamps, in the order of the source. *)
Definition markers (lags : list Z) : Markers :=
  let n := Z.of_nat (length lags) in
  let '(d0, p20_0, p90_0) :=
    match lags with
    | [] => (14, 4, 30)
    | _ =>
        let d := nth (pctIndex n 1 2) lags 0 in
        let p20 := Z.max 1 (nth (pctIndex n 2 10) lags 0) in
        let p90 := Z.max (d + 5) (nth (pctIndex n 9 10) lags 0) in
        (d, p20, p90)
    end in
  let d1 := Z.max 5 (Z.min d0 60) in
  let p20_1 := Z.min p20_0 (d1 - 1) in
  let p20_2 := if p20_1 <? 1 then 1 else p20_1 in
  let p90_1 := Z.max (d1 + 1) (Z.min p90_0 90) in
  {| d_value := d1; p20_value := p20_2; p90_value := p90_1 |}.

Record LagBucket := { days : Z; count : N; cumulativePct : Q }.

(** Step 5: [for (let i = 0; i <= finalLimit; i += 2)]; [fuel] is the
    number of iterations. *)
Fixpoint histLoop (lags : list Z) (totalReturns : N) (fuel : nat) (i : Z)
         (cumulative : N) : list LagBucket :=
  match fuel with
  | O => []
  | S f =>
      let cnt := N.of_nat (length (filter (fun l => (i <=? l) && (l <? i + 2)) lags)) in
      let cum := (cumulative + cnt)%N in
      {| days := i; count := cnt; cumulativePct := (QN cum / QN totalReturns)%Q |}
        :: histLoop lags totalReturns f (i + 2) cum
  end.

Definition distribution (lags : list Z) (p90 : Z) : list LagBucket :=
  match lags with
  | [] => []
  | _ =>
      let totalReturns := N.of_nat (length lags) in
      let p95 := nth (pctIndex (Z.of_nat (length lags)) 95 100) lags 0 in
      let limitVal := Z.max p95 (p90 + 14) in
      let finalLimit := Z.min limitVal 120 in
      let fuel := if finalLimit <? 0 then O else S (Z.to_nat (finalLimit / 2)) in
      histLoop lags totalReturns fuel 0 0%N
  end.

(** [getCumulativePct]: the last bucket with [days <= day] (found on the
    reversed copy; [indexOf] gives its position), then linear interpolation
    towards the next bucket. *)
Definition getCumulativePct (dist : list LagBucket) (day : Z) : Q :=
  match dist with
  | [] => 1%Q
  | _ =>
      match find (fun ib => days (snd ib) <=? day)
                 (rev (combine (seq 0 (length dist)) dist)) with
      | None => 0%Q
      | Some (bucketIdx, bucket) =>
          match nth_error dist (S bucketIdx) with
          | None => cumulativePct bucket
          | Some nextBucket =>
              let range := inject_Z (days nextBucket - days bucket) in
              let progress := (inject_Z (day - days bucket) / range)%Q in
              let pctRange := (cumulativePct nextBucket - cumulativePct bucket)%Q in
              (cumulativePct bucket + progress * pctRange)%Q
          end
      end
  end.

End Lag.

(** ** Cohort Bucketizer, Gross-Up Projector and roll-up (maturityAnalyzer) *)

Module Maturity.
Import Lag.

Record MaturityMetrics := { volume : N; returns : N; rate : Q }.

(** [calcStats] (the [range] field is presentation only and omitted). *)
Definition calcStats (subset : list RawOrderRow) : MaturityMetrics :=
  let vol := fold_left (fun acc cur => (acc + units_sold cur)%N) subset 0%N in
  let ret := fold_left (fun acc cur => (acc + getReturnCount cur)%N) subset 0%N in
  {| volume := vol; returns := ret;
     rate := if (0 <? vol)%N then (QN ret / QN vol)%Q else 0%Q |}.

(** [dailyMap]: a [Map] keyed by the purchase date, in insertion order. *)
Record DayStats := { vol : N; ret : N; pTime : Z }.

Fixpoint mapAdd (m : list (Z * DayStats)) (o : RawOrderRow) : list (Z * DayStats) :=
  match m with
  | [] => [(purchase_date o,
            {| vol := units_sold o; ret := getReturnCount o; pTime := purchase_date o |})]
  | (d, st) :: m' =>
      if d =? purchase_date o
      then (d, {| vol := (vol st + units_sold o)%N;
                  ret := (ret st + getReturnCount o)%N;
                  pTime := pTime st |}) :: m'
      else (d, st) :: mapAdd m' o
  end.

Definition dailyMap (subset : list RawOrderRow) : list (Z * DayStats) :=
  fold_left mapAdd subset [].

Inductive Phase := rampup | mature | finalized.
Inductive Algorithm := linear_blend | gross_up | none.

Record DailyProjectionRow := {
  date : Z;
  age : Z;
  phase : Phase;
  sales : N;
  realized : N;
  currentRate : Q;
  lagPct : Q;
  algorithm : Algorithm;
  weight : Q;
  forecastAdd : Q;
  projectedTotal : Q;
  projectedRate : Q
}.

(** The body of [dailyMap.forEach] that builds one row. *)
Definition projectDay (mk : Markers) (dist : list LagBucket) (sTime : Z)
           (entry : Z * DayStats) : DailyProjectionRow :=
  let '(d, stats) := entry in
  let ageDays := sTime - pTime stats in
  let cumPct := getCumulativePct dist ageDays in
  let realizedQ := QN (ret stats) in
  let '(ph, alg, w, fAdd, pTotal) :=
    if ageDays >? p90_value mk then
      let fAdd := if Qltb (1 # 100) cumPct
                  then Qmax 0 (realizedQ / cumPct - realizedQ) else 0%Q in
      (finalized, gross_up, 1%Q, fAdd, (realizedQ + fAdd)%Q)
    else if ageDays >=? d_value mk then
      let fAdd := if Qltb (1 # 100) cumPct
                  then Qmax 0 (realizedQ / cumPct - realizedQ) else 0%Q in
      (mature, gross_up, 1%Q, fAdd, (realizedQ + fAdd)%Q)
    else (rampup, none, 0%Q, 0%Q, realizedQ) in
  let sls := vol stats in
  {| date := d; age := ageDays; phase := ph; sales := sls; realized := ret stats;
     currentRate := if (0 <? sls)%N then (realizedQ / QN sls)%Q else 0%Q;
     lagPct := cumPct; algorithm := alg; weight := w;
     forecastAdd := fAdd; projectedTotal := pTotal;
     projectedRate := if (0 <? sls)%N then (pTotal / QN sls)%Q else 0%Q |}.

Definition phaseb (ph : Phase) (r : DailyProjectionRow) : bool :=
  match ph, phase r with
  | rampup, rampup | mature, mature | finalized, finalized => true
  | _, _ => false
  end.

Record ProjectionBucket := {
  bvolume : N; realizedReturns : N; forecastedReturns : Q
}.

Definition emptyBucket : ProjectionBucket :=
  {| bvolume := 0; realizedReturns := 0; forecastedReturns := 0 |}.

Definition addToBucket (b : ProjectionBucket) (r : DailyProjectionRow) : ProjectionBucket :=
  {| bvolume := (bvolume b + sales r)%N;
     realizedReturns := (realizedReturns b + realized r)%N;
     forecastedReturns := (forecastedReturns b + forecastAdd r)%Q |}.

(** [projBuckets], as the triple (finalized, mature, rampup). *)
Definition accumulate (bs : ProjectionBucket * ProjectionBucket * ProjectionBucket)
           (r : DailyProjectionRow) :=
  let '(fin, mat, ramp) := bs in
  match phase r with
  | finalized => (addToBucket fin r, mat, ramp)
  | mature => (fin, addToBucket mat r, ramp)
  | rampup => (fin, mat, addToBucket ramp r)
  end.

Inductive MaturityStatus := insufficient | projecting.

Record Projection := {
  projectedRateP : option Q;
  forecastedVolume : Q;
  buckets : list ProjectionBucket;
  baselineRate : Q
}.

Record Summary := {
  sm_projection_rate : option Q;
  sm_forecasted : Q;
  sm_confidence : Q;
  sm_status : MaturityStatus;
  sm_evaluable : bool
}.

(** Steps 1-3 of "Consolidate Projection Summary". *)
Definition summarize (fin mat ramp : ProjectionBucket) : Summary :=
  let grandTotalVolume := (0 + bvolume fin + bvolume mat + bvolume ramp)%N in
  let reliableVolume := (0 + bvolume fin + bvolume mat)%N in
  let reliableRealized := (0 + realizedReturns fin + realizedReturns mat)%N in
  let reliableForecasted := (0 + forecastedReturns fin + forecastedReturns mat)%Q in
  let projectedTotalReturns := (QN reliableRealized + reliableForecasted)%Q in
  let pRate := if (0 <? reliableVolume)%N
               then Some (projectedTotalReturns / QN reliableVolume)%Q else None in
  let confidenceScore := if (0 <? grandTotalVolume)%N
                         then (QN reliableVolume / QN grandTotalVolume)%Q else 0%Q in
  {| sm_projection_rate := pRate;
     sm_forecasted := reliableForecasted;
     sm_confidence := confidenceScore;
     sm_status := if Qle_bool (1 # 2) confidenceScore then projecting else insufficient;
     sm_evaluable := Qle_bool (1 # 2) confidenceScore |}.

Record MaturityAnalysisResult := {
  t0 : Z;
  s : Z;
  dv : Z;
  p20v : Z;
  p90v : Z;
  maturityStatus : MaturityStatus;
  confidenceScore : Q;
  isEvaluable : bool;
  lagDistribution : list LagBucket;
  metricsPre : MaturityMetrics;
  metricsReference : MaturityMetrics;
  metricsPostMature : MaturityMetrics;
  metricsPostNominal : MaturityMetrics;
  projection : Projection;
  dailyProjections : list DailyProjectionRow
}.

Definition spanOf (o : option Z) : Z :=
  match o with Some sp => if sp =? 0 then 30 else sp | None => 30 end.

(** [analyzeMaturity]; the date ranges, the target-date estimator and the
    trend series are computed by the same steps in [Timeline] below; the
    date strings are not modelled. *)
Definition analyzeMaturity (data : AppData) : option MaturityAnalysisResult :=
  match return_order data, t0Date data with
  | Some [], _ | None, _ | _, None => None
  | Some orders, Some t0Time =>
      let span := spanOf (comparisonSpan data) in
      let sTime := latestPurchase orders in
      let pre := preSubset orders t0Time in
      let ls := lags orders t0Time in
      let mk := markers ls in
      let dist := distribution ls (p90_value mk) in
      let refStart := t0Time - span in
      let refSubset := filter (fun o => (refStart <=? purchase_date o) &&
                                        (purchase_date o <? t0Time)) orders in
      let postEnd := t0Time + span in
      let projectionSubset := filter (fun o => (t0Time <=? purchase_date o) &&
                                               (purchase_date o <? postEnd)) orders in
      let rows := map (projectDay mk dist sTime) (dailyMap projectionSubset) in
      let '(fin, mat, ramp) := fold_left accumulate rows (emptyBucket, emptyBucket, emptyBucket) in
      let sm := summarize fin mat ramp in
      Some {| t0 := t0Time; s := sTime;
              dv := d_value mk; p20v := p20_value mk; p90v := p90_value mk;
              maturityStatus := sm_status sm;
              confidenceScore := sm_confidence sm;
              isEvaluable := sm_evaluable sm;
              lagDistribution := dist;
              metricsPre := calcStats pre;
              metricsReference := calcStats refSubset;
              metricsPostMature := calcStats projectionSubset;
              metricsPostNominal := calcStats projectionSubset;
              projection := {| projectedRateP := sm_projection_rate sm;
                               forecastedVolume := sm_forecasted sm;
                               buckets := [fin; mat; ramp];
                               baselineRate := rate (calcStats pre) |};
              dailyProjections := sort_by (fun a b => age b - age a) rows |}
  end.

End Maturity.

(** ** Fairness Contrast Engine (contrastAnalyzer) *)

Module Contrast.

Record ContrastMetrics := { csales : N; creturns : N; crate : Q }.

Record DailyContrastRow := {
  rdate : Z;
  matchedDate : Z;
  ageLimit : Z;
  rsales : N;
  rreturns : N;
  refSales : N;
  refReturns : N
}.

Record VelocityPoint := { vday : Z; beforeRate : Q; afterRate : Q }.

Record ContrastResult := {
  hasData : bool;
  ct0 : Z;
  cs : Z;
  runDays : Z;
  before : ContrastMetrics;
  after : ContrastMetrics;
  deltaRate : Q;
  isImproved : bool;
  velocityChart : list VelocityPoint;
  dailyBreakdown : list DailyContrastRow
}.

(** [getLag]. *)
Definition getLag (o : RawOrderRow) : option Z :=
  match return_date o with
  | Some r => Some (r - purchase_date o)
  | None => None
  end.

(** [arr[k] += x] on an array of the right length. *)
Fixpoint addAt (v : list N) (k : nat) (x : N) : list N :=
  match v, k with
  | [], _ => []
  | y :: ys, O => (y + x)%N :: ys
  | y :: ys, S k' => y :: addAt ys k' x
  end.

(** [afterOrders.forEach]: returns (dayASales, dayAReturns, afterVelocity). *)
Fixpoint afterPass (os : list RawOrderRow) (daysCount : Z) (sales rets : N)
         (vel : list N) : N * N * list N :=
  match os with
  | [] => (sales, rets, vel)
  | o :: os' =>
      let sales' := (sales + units_sold o)%N in
      let rCount := getReturnCount o in
      if (0 <? rCount)%N then
        let vel' := match getLag o with
                    | Some lag => if (lag >=? 0) && (lag <? daysCount)
                                  then addAt vel (Z.to_nat lag) rCount else vel
                    | None => vel
                    end in
        afterPass os' daysCount sales' (rets + rCount)%N vel'
      else afterPass os' daysCount sales' rets vel
  end.

(** [beforeOrders.forEach], with the censoring test [lag <= ageLimitDays]:
    returns (dayBSales, dayBReturns, beforeVelocity). *)
Fixpoint beforePass (os : list RawOrderRow) (daysCount ageLimitDays : Z)
         (sales rets : N) (vel : list N) : N * N * list N :=
  match os with
  | [] => (sales, rets, vel)
  | o :: os' =>
      let sales' := (sales + units_sold o)%N in
      let rCount := getReturnCount o in
      if (0 <? rCount)%N then
        match getLag o with
        | Some lag =>
            if lag <=? ageLimitDays then
              let vel' := if (lag >=? 0) && (lag <? daysCount)
                          then addAt vel (Z.to_nat lag) rCount else vel in
              beforePass os' daysCount ageLimitDays sales' (rets + rCount)%N vel'
            else beforePass os' daysCount ageLimitDays sales' rets vel
        | None => beforePass os' daysCount ageLimitDays sales' rets vel
        end
      else beforePass os' daysCount ageLimitDays sales' rets vel
  end.

Record LoopState := {
  afterTotalSales : N;
  afterTotalReturns : N;
  beforeTotalSales : N;
  beforeTotalReturns : N;
  dailyRows : list DailyContrastRow;
  afterVelocity : list N;
  beforeVelocity : list N
}.

(** One iteration [i] of the fairness loop. *)
Definition loopStep (orders : list RawOrderRow) (t0Time maxTime daysCount : Z)
           (st : LoopState) (i : nat) : LoopState :=
  let afterStart := t0Time + 1 in
  let beforeStart := t0Time - daysCount in
  let currentAfter := afterStart + Z.of_nat i in
  let ageLimitDays := maxTime - currentAfter in
  let afterOrders := filter (fun o => purchase_date o =? currentAfter) orders in
  let '(dayASales, dayAReturns, aVel) :=
    afterPass afterOrders daysCount 0 0 (afterVelocity st) in
  let currentBefore := beforeStart + Z.of_nat i in
  let beforeOrders := filter (fun o => purchase_date o =? currentBefore) orders in
  let '(dayBSales, dayBReturns, bVel) :=
    beforePass beforeOrders daysCount ageLimitDays 0 0 (beforeVelocity st) in
  {| afterTotalSales := (afterTotalSales st + dayASales)%N;
     afterTotalReturns := (afterTotalReturns st + dayAReturns)%N;
     beforeTotalSales := (beforeTotalSales st + dayBSales)%N;
     beforeTotalReturns := (beforeTotalReturns st + dayBReturns)%N;
     dailyRows := dailyRows st ++
       [{| rdate := currentAfter; matchedDate := currentBefore;
           ageLimit := ageLimitDays; rsales := dayASales; rreturns := dayAReturns;
           refSales := dayBSales; refReturns := dayBReturns |}];
     afterVelocity := aVel;
     beforeVelocity := bVel |}.

(** Step 7: [for (let d = 0; d < daysCount; d++)] with running sums. *)
Fixpoint velocityLoop (aS bS : N) (aVel bVel : list N) (d : nat) (cumA cumB : N)
         (fuel : nat) : list VelocityPoint :=
  match fuel with
  | O => []
  | S f =>
      let cumA' := (cumA + nth d aVel 0)%N in
      let cumB' := (cumB + nth d bVel 0)%N in
      {| vday := Z.of_nat d;
         afterRate := if (0 <? aS)%N then (QN cumA' / QN aS)%Q else 0%Q;
         beforeRate := if (0 <? bS)%N then (QN cumB' / QN bS)%Q else 0%Q |}
        :: velocityLoop aS bS aVel bVel (S d) cumA' cumB' f
  end.

Definition analyzeContrast (data : AppData) : option ContrastResult :=
  match return_order data, t0Date data with
  | Some [], _ | None, _ | _, None => None
  | Some orders, Some t0Time =>
      let maxTime := latestPurchase orders in
      if maxTime <=? t0Time then None else
      let afterStart := t0Time + 1 in
      let daysCount := (maxTime - afterStart) + 1 in
      let n := Z.to_nat daysCount in
      let st0 := {| afterTotalSales := 0; afterTotalReturns := 0;
                    beforeTotalSales := 0; beforeTotalReturns := 0;
                    dailyRows := []; afterVelocity := repeat 0%N n;
                    beforeVelocity := repeat 0%N n |} in
      let st := fold_left (loopStep orders t0Time maxTime daysCount) (seq 0 n) st0 in
      let aS := afterTotalSales st in
      let bS := beforeTotalSales st in
      let beforeRate := if (0 <? bS)%N then (QN (beforeTotalReturns st) / QN bS)%Q else 0%Q in
      let afterRate := if (0 <? aS)%N then (QN (afterTotalReturns st) / QN aS)%Q else 0%Q in
      let deltaRate := if Qltb 0 beforeRate then ((afterRate - beforeRate) / beforeRate)%Q
                       else if Qltb 0 afterRate then 1%Q else 0%Q in
      Some {| hasData := true; ct0 := t0Time; cs := maxTime; runDays := daysCount;
              before := {| csales := bS; creturns := beforeTotalReturns st; crate := beforeRate |};
              after := {| csales := aS; creturns := afterTotalReturns st; crate := afterRate |};
              deltaRate := deltaRate;
              isImproved := Qltb deltaRate 0;
              velocityChart := velocityLoop aS bS (afterVelocity st) (beforeVelocity st) 0 0 0 n;
              dailyBreakdown := sort_by (fun a b => rdate b - rdate a) (dailyRows st) |}
  end.

(** The censoring test of the claims: an order's return is within the age
    limit [L] when it has a lag and that lag is at most [L]. *)
Definition lagWithin (L : Z) (o : RawOrderRow) : bool :=
  match getLag o with Some lag => lag <=? L | None => false end.

(** Closed form of the row the loop pushes for day [i]: sums over the
    orders of the after-day and of the mirrored before-day. *)
Definition rowAt (orders : list RawOrderRow) (t0Time maxTime daysCount : Z) (i : nat)
  : DailyContrastRow :=
  let currentAfter := t0Time + 1 + Z.of_nat i in
  let currentBefore := t0Time - daysCount + Z.of_nat i in
  let L := maxTime - currentAfter in
  let aOrders := filter (fun o => purchase_date o =? currentAfter) orders in
  let bOrders := filter (fun o => purchase_date o =? currentBefore) orders in
  {| rdate := currentAfter; matchedDate := currentBefore; ageLimit := L;
     rsales := sumN (map units_sold aOrders);
     rreturns := sumN (map getReturnCount aOrders);
     refSales := sumN (map units_sold bOrders);
     refReturns := sumN (map getReturnCount (filter (lagWithin L) bOrders)) |}.

End Contrast.

(** ** Date ranges, target dates and the trend series (maturityAnalyzer) *)

Module Timeline.
Import Lag Maturity.

(** [getRangeInfo]: ['-'] is [None]; [min] and [max] start at [Infinity]
    and [-Infinity], written [None]. *)
Record DateRange := { rangeStart : option Z; rangeEnd : option Z; daysSpan : Z }.

Definition minStep (m : option Z) (o : RawOrderRow) : option Z :=
  match m with
  | None => Some (purchase_date o)
  | Some v => if purchase_date o <? v then Some (purchase_date o) else m
  end.

Definition maxStep (m : option Z) (o : RawOrderRow) : option Z :=
  match m with
  | None => Some (purchase_date o)
  | Some v => if purchase_date o >? v then Some (purchase_date o) else m
  end.

Definition getRangeInfo (subset : list RawOrderRow) : DateRange :=
  match subset with
  | [] => {| rangeStart := None; rangeEnd := None; daysSpan := 0 |}
  | _ =>
      match fold_left minStep subset None, fold_left maxStep subset None with
      | Some mn, Some mx => {| rangeStart := Some mn; rangeEnd := Some mx; daysSpan := mx - mn + 1 |}
      | _, _ => {| rangeStart := None; rangeEnd := None; daysSpan := 0 |}
      end
  end.

(** The target-date block ("DYNAMIC TARGET DATE CALCULATION"), on the
    projection subset, T0, S and the markers. [accumulatedVol >=
    totalProjectionVol * 0.5] on integers is [total <= 2 * acc]. *)
Record TargetDates := { earliestEvalTime : Z; p90Time : Z; daysToWait : Z }.

(** [for (const order of sortedSubset)]: returns (p50VolDate, p100Date). *)
Fixpoint scanTarget (os : list RawOrderRow) (total accumulatedVol : N) (foundTarget : bool)
         (p50 p100 : Z) : Z * Z :=
  match os with
  | [] => (p50, p100)
  | o :: os' =>
      let acc := (accumulatedVol + units_sold o)%N in
      let t := purchase_date o in
      if negb foundTarget && (total <=? 2 * acc)%N
      then scanTarget os' total acc true t t
      else scanTarget os' total acc foundTarget p50 t
  end.

Definition targetDates (projectionSubset : list RawOrderRow) (t0Time sTime : Z)
           (mk : Markers) : TargetDates :=
  let totalProjectionVol :=
    fold_left (fun acc cur => (acc + units_sold cur)%N) projectionSubset 0%N in
  let '(p50VolDate, p100Date) :=
    if (0 <? totalProjectionVol)%N
    then scanTarget (sort_by (fun a b => purchase_date a - purchase_date b) projectionSubset)
                    totalProjectionVol 0 false t0Time t0Time
    else (t0Time, t0Time) in
  let earliest := p50VolDate + d_value mk in
  {| earliestEvalTime := earliest;
     p90Time := p100Date + p90_value mk;
     daysToWait := earliest - sTime |}.

(** Step 8, the trend series. [trendMap] is keyed by the purchase date in
    insertion order; [trendMap.get(d) || {vol: 0, ret: 0}] is [trendGet]. *)
Record DailyTrend := { tdate : Z; tvolume : N; treturns : N; trate : Q; isPost : bool }.

Fixpoint trendAdd (m : list (Z * (N * N))) (o : RawOrderRow) : list (Z * (N * N)) :=
  match m with
  | [] => [(purchase_date o, (units_sold o, getReturnCount o))]
  | (d, (v, r)) :: m' =>
      if d =? purchase_date o
      then (d, ((v + units_sold o)%N, (r + getReturnCount o)%N)) :: m'
      else (d, (v, r)) :: trendAdd m' o
  end.

Definition trendGet (m : list (Z * (N * N))) (d : Z) : N * N :=
  match find (fun e => fst e =? d) m with
  | Some (_, st) => st
  | None => (0%N, 0%N)
  end.

(** [for (let i = 0; i < daysInTrend; i++)] with its [break] on [t > sTime];
    [fuel] is [daysInTrend]. *)
Fixpoint trendLoop (trendMap : list (Z * (N * N))) (trendStart sTime t0Time : Z)
         (i : nat) (fuel : nat) : list DailyTrend :=
  match fuel with
  | O => []
  | S f =>
      let t := trendStart + Z.of_nat i in
      if t >? sTime then [] else
      let '(v, r) := trendGet trendMap t in
      {| tdate := t; tvolume := v; treturns := r;
         trate := if (0 <? v)%N then (QN r / QN v)%Q else 0%Q;
         isPost := t >=? t0Time |}
        :: trendLoop trendMap trendStart sTime t0Time (S i) f
  end.

(** The [trend] field of [analyzeMaturity data]. *)
Definition trendOf (data : AppData) : option (list DailyTrend) :=
  match return_order data, t0Date data with
  | Some [], _ | None, _ | _, None => None
  | Some orders, Some t0Time =>
      let span := spanOf (comparisonSpan data) in
      let sTime := latestPurchase orders in
      let refStart := t0Time - span in
      let refSubset := filter (fun o => (refStart <=? purchase_date o) &&
                                        (purchase_date o <? t0Time)) orders in
      let postEnd := t0Time + span in
      let projectionSubset := filter (fun o => (t0Time <=? purchase_date o) &&
                                               (purchase_date o <? postEnd)) orders in
      let trendStart := refStart in
      let trendEnd := Z.min postEnd (sTime + 1) in
      let daysInTrend := Z.max 0 (trendEnd - trendStart) in
      let trendMap := fold_left trendAdd (refSubset ++ projectionSubset) [] in
      Some (trendLoop trendMap trendStart sTime t0Time 0 (Z.to_nat daysInTrend))
  end.

End Timeline.

(** ** Closed forms used by the proofs *)

(** The number of lag samples in [[a, b)]. *)
Definition cntIn (a b : Z) (ls : list Z) : nat :=
  length (filter (fun l => (a <=? l) && (l <? b)) ls).

(** The default element of [nth] on a bucket list. *)
Definition zeroBucket : Lag.LagBucket := {| Lag.days := 0; Lag.count := 0; Lag.cumulativePct := 0 |}.

(** The keys of the [dailyMap] association list. *)
Definition keys (m : list (Z * Maturity.DayStats)) : list Z := map fst m.

(** The orders bought on day [d]. *)
Definition dayOf (d : Z) (o : RawOrderRow) : bool := purchase_date o =? d.

(** What [dailyMap] keeps: one entry per purchase day, each holding that
    day's purchase time and sums. *)
Definition dayInv (m : list (Z * Maturity.DayStats)) (p : list RawOrderRow) : Prop :=
  NoDup (keys m) /\
  (forall d, In d (keys m) <-> exists o, In o p /\ purchase_date o = d) /\
  (forall d st, In (d, st) m ->
     Maturity.pTime st = d /\
     Maturity.vol st = sumN (map units_sold (filter (dayOf d) p)) /\
     Maturity.ret st = sumN (map getReturnCount (filter (dayOf d) p))).

(** The trend entry the loop pushes for day [t]. *)
Definition trendEntry (m : list (Z * (N * N))) (t t0Time : Z) : Timeline.DailyTrend :=
  let '(v, r) := Timeline.trendGet m t in
  {| Timeline.tdate := t; Timeline.tvolume := v; Timeline.treturns := r;
     Timeline.trate := if (0 <? v)%N then (QN r / QN v)%Q else 0%Q;
     Timeline.isPost := t >=? t0Time |}.

(** The running velocity sum [v[d] + ... + v[d+j]]. *)
Definition cumVel (v : list N) (d j : nat) : N :=
  sumN (map (fun k => nth k v 0%N) (seq d (S j))).

(** ** Sample inputs *)

Module Samples.

(** Day numbers: 2024-01-01 is day 19723, 2024-02-05 is 19758,
    2024-03-01 is 19783. *)
Definition row (id : nat) (p : Z) (r : option Z) (sold : N) (ret : option N) : RawOrderRow :=
  {| order_id := id; purchase_date := p; return_date := r;
     units_sold := sold; units_returned := ret |}.

Definition orders1 : list RawOrderRow :=
  [ row 1 19723 (Some 19758) 3 (Some 0%N);
    row 2 19760 (Some 19770) 10 (Some 2%N);
    row 3 19775 None 5 None;
    row 4 19780 (Some 19782) 4 (Some 1%N);
    row 5 19785 (Some 19790) 6 (Some 1%N);
    row 6 19790 None 8 None;
    row 7 19795 (Some 19798) 3 None;
    row 8 19800 None 2 None ].

Definition data1 : AppData :=
  {| return_order := Some orders1; t0Date := Some 19783; comparisonSpan := Some 30 |}.

(** Baseline lags [2; 6; 6; 20] (P50 = 6, P90 = 20); a cohort day of age 8
    is grossed up from 3 to 4 returns. *)
Definition data2 : AppData :=
  {| return_order := Some
       [ row 1 50 (Some 52) 1 None;
         row 2 60 (Some 66) 5 (Some 2%N);
         row 3 70 (Some 90) 1 None;
         row 4 100 (Some 105) 10 (Some 1%N);
         row 5 112 (Some 115) 20 (Some 3%N);
         row 6 120 None 5 None ];
     t0Date := Some 100; comparisonSpan := None |}.

(** No baseline sample: the only baseline order has no return. *)
Definition orders3 : list RawOrderRow :=
  [ row 1 90 None 5 None;
    row 2 101 (Some 104) 3 (Some 1%N);
    row 3 110 None 2 None ].

(** Scenario 4: cutoff 2024-03-01 and latest purchase 2024-03-01. *)
Definition data4 : AppData :=
  {| return_order := Some [ row 1 19760 (Some 19770) 4 None;
                            row 2 19783 None 6 None ];
     t0Date := Some 19783; comparisonSpan := None |}.

Definition data3 : AppData :=
  {| return_order := Some orders3; t0Date := Some 100; comparisonSpan := Some 30 |}.

End Samples.

(** * Proofs *)

(** ** Sorting is a permutation *)

Section SortFacts.
Context {A : Type} (cmp : A -> A -> Z).

Lemma insert_by_perm (x : A) (l : list A) :
  Permutation (insert_by cmp x l) (x :: l).
Proof.
  induction l as [|y ys IH]; simpl; [reflexivity|].
  destruct (cmp x y <? 0); [reflexivity|].
  rewrite IH. apply perm_swap.
Qed.

Lemma sort_by_perm_acc (l acc : list A) :
  Permutation (fold_left (fun acc x => insert_by cmp x acc) l acc) (l ++ acc).
Proof.
  revert acc; induction l as [|x l IH]; intros acc; simpl; [reflexivity|].
  rewrite IH, insert_by_perm. symmetry. apply Permutation_middle.
Qed.

Lemma sort_by_perm (l : list A) : Permutation (sort_by cmp l) l.
Proof.
  unfold sort_by. rewrite sort_by_perm_acc, app_nil_r. reflexivity.
Qed.
End SortFacts.

(** ** Lag samples *)

Lemma count_occ_flat_map_Z (f : RawOrderRow -> list Z) (l : list RawOrderRow) (v : Z) :
  count_occ Z.eq_dec (flat_map f l) v =
  fold_right Nat.add 0%nat (map (fun o => count_occ Z.eq_dec (f o) v) l).
Proof.
  induction l as [|o l IH]; simpl; [reflexivity|].
  rewrite count_occ_app, IH. reflexivity.
Qed.

Lemma count_occ_repeat_Z (x v : Z) (n : nat) :
  count_occ Z.eq_dec (repeat x n) v = if x =? v then n else 0%nat.
Proof.
  induction n as [|n IH]; simpl.
  - destruct (x =? v); reflexivity.
  - rewrite IH. destruct (Z.eq_dec x v) as [->|Hne].
    + rewrite Z.eqb_refl. reflexivity.
    + apply Z.eqb_neq in Hne. rewrite Hne. reflexivity.
Qed.

Lemma sumN_to_nat (l : list N) :
  N.to_nat (sumN l) = fold_right Nat.add 0%nat (map N.to_nat l).
Proof.
  induction l as [|x l IH]; simpl; [reflexivity|].
  rewrite N2Nat.inj_add, IH. reflexivity.
Qed.

(** ** Markers *)

Lemma markers_bounds (ls : list Z) :
  let mk := Lag.markers ls in
  1 <= Lag.p20_value mk /\ Lag.p20_value mk <= Lag.d_value mk - 1 /\
  5 <= Lag.d_value mk <= 60 /\
  Lag.d_value mk + 1 <= Lag.p90_value mk <= 90.
Proof.
  unfold Lag.markers. cbv zeta.
  destruct (match ls with [] => _ | _ => _ end) as [[d0 p20_0] p90_0].
  simpl Lag.d_value; simpl Lag.p20_value; simpl Lag.p90_value.
  destruct (Z.min p20_0 (Z.max 5 (Z.min d0 60) - 1) <? 1) eqn:E;
  rewrite ?Z.ltb_lt, ?Z.ltb_ge in E; lia.
Qed.

Lemma pushLags_count (o : RawOrderRow) (v : Z) :
  count_occ Z.eq_dec (Lag.pushLags o) v =
  N.to_nat (match return_date o with
            | Some r => if (0 <? getReturnCount o)%N && (r - purchase_date o =? v) && (0 <=? v)
                        then getReturnCount o else 0%N
            | None => 0%N
            end).
Proof.
  unfold Lag.pushLags. destruct (return_date o) as [r|]; [|reflexivity].
  destruct (0 <? getReturnCount o)%N; simpl; [|reflexivity].
  destruct (r - purchase_date o >=? 0) eqn:Hge.
  - rewrite count_occ_repeat_Z.
    destruct (r - purchase_date o =? v) eqn:Hv; simpl; [|reflexivity].
    apply Z.eqb_eq in Hv. apply Z.geb_le in Hge.
    replace (0 <=? v) with true by (symmetry; apply Z.leb_le; lia). reflexivity.
  - simpl. destruct (r - purchase_date o =? v) eqn:Hv; simpl; [|reflexivity].
    apply Z.eqb_eq in Hv. rewrite Z.geb_leb in Hge. apply Z.leb_gt in Hge.
    replace (0 <=? v) with false by (symmetry; apply Z.leb_gt; lia). reflexivity.
Qed.

(** ** Claim C7 *)

(** C7: the multiset of lag samples is exactly, for every order of the
    baseline window [T0-60d, T0) with a return date and an effective return
    count c > 0, its non-negative lag repeated c times; no other order
    contributes. The count of each value [v] in the sorted sample array is
    the sum of those counts. Scenario 3: units_sold=3, units_returned=0,
    bought 2024-01-01, returned 2024-02-05, pushes 35 three times. *)
Theorem C7_lag_samples_multiset :
  (forall (orders : list RawOrderRow) (t0 v : Z),
    count_occ Z.eq_dec (Lag.lags orders t0) v =
    N.to_nat (sumN (map (fun o =>
      match return_date o with
      | Some r =>
          if Lag.inBaseline t0 o && (0 <? getReturnCount o)%N
             && (r - purchase_date o =? v) && (0 <=? v)
          then getReturnCount o else 0%N
      | None => 0%N
      end) orders))) /\
  Lag.pushLags (Samples.row 1 19723 (Some 19758) 3 (Some 0%N)) = [35; 35; 35].
Proof.
  split; [|reflexivity].
  intros orders t0 v. unfold Lag.lags.
  rewrite (proj1 (Permutation_count_occ Z.eq_dec _ _) (sort_by_perm _ _) v).
  rewrite count_occ_flat_map_Z, sumN_to_nat, map_map.
  unfold Lag.preSubset.
  induction orders as [|o os IH]; simpl; [reflexivity|].
  destruct (Lag.inBaseline t0 o) eqn:Hb; simpl.
  - rewrite IH, pushLags_count. destruct (return_date o); reflexivity.
  - rewrite IH. destruct (return_date o); reflexivity.
Qed.

(** ** Claim C8 *)

(** C8: after clamping, the markers satisfy P20 <= P50 <= P90,
    P50 in [5,60], P90 in [P50+1, 90] and P20 >= 1, for every sample array
    (the claim asks it for non-empty ones; it also holds for the defaults). *)
Theorem C8_marker_ordering (ls : list Z) :
  let mk := Lag.markers ls in
  Lag.p20_value mk <= Lag.d_value mk <= Lag.p90_value mk /\
  5 <= Lag.d_value mk <= 60 /\
  Lag.d_value mk + 1 <= Lag.p90_value mk <= 90 /\
  1 <= Lag.p20_value mk.
Proof.
  cbv zeta. pose proof (markers_bounds ls) as H. cbv zeta in H. lia.
Qed.

(** ** Claim C2 *)

(** The claim's reading of step 6 makes P90 start from the clamped P50. On
    the one-sample array [0] the code gives P90 = 6, that reading gives 10:
    the source computes [max(d_value + 5, ..)] before [d_value] is clamped. *)
Lemma C2_counterexample :
  ~ (forall s : list Z, s <> [] -> Sorted Z.le s ->
       Lag.p90_value (Lag.markers s) =
       Z.max (Lag.d_value (Lag.markers s) + 1)
             (Z.min (Z.max (Lag.d_value (Lag.markers s) + 5)
                           (nth (Lag.pctIndex (Z.of_nat (length s)) 9 10) s 0)) 90)).
Proof.
  intros H. specialize (H [0] ltac:(discriminate) ltac:(repeat constructor)).
  vm_compute in H. discriminate H.
Qed.

(** C2 (amended): for a non-empty sample array of length n, P50 is
    s[floor(n/2)] clamped to [5,60]; P20 is max(1, s[floor(n*0.2)]) capped at
    P50-1 with floor 1; P90 is max(raw P50 + 5, s[floor(n*0.9)]), raw P50
    being the unclamped s[floor(n/2)], then clamped to [P50+1, 90] with the
    clamped P50. Scenario 1 yields P50=5, P20=2, P90=20. *)
Theorem C2_marker_formulas (ls : list Z) (Hne : ls <> []) :
  let n := Z.of_nat (length ls) in
  let raw50 := nth (Lag.pctIndex n 1 2) ls 0 in
  let p50 := Z.max 5 (Z.min raw50 60) in
  let p20 := Z.max 1 (Z.min (Z.max 1 (nth (Lag.pctIndex n 2 10) ls 0)) (p50 - 1)) in
  let p90 := Z.max (p50 + 1) (Z.min (Z.max (raw50 + 5) (nth (Lag.pctIndex n 9 10) ls 0)) 90) in
  Lag.markers ls = {| Lag.d_value := p50; Lag.p20_value := p20; Lag.p90_value := p90 |} /\
  Lag.markers [2; 2; 5; 5; 5; 8; 10; 12; 20] =
    {| Lag.d_value := 5; Lag.p20_value := 2; Lag.p90_value := 20 |}.
Proof.
  split; [|reflexivity].
  unfold Lag.markers. destruct ls as [|x xs]; [congruence|].
  cbv zeta. f_equal.
  match goal with |- (if ?c then _ else _) = _ => destruct c eqn:E end;
  rewrite ?Z.ltb_lt, ?Z.ltb_ge in E; lia.
Qed.

Lemma C2_marker_formulas_witness :
  [0] <> [] /\ Lag.p90_value (Lag.markers [0]) = 6.
Proof.
  split; [discriminate|].
  destruct (C2_marker_formulas [0] ltac:(discriminate)) as [H _].
  rewrite H. vm_compute. reflexivity.
Defined.

(** ** Cohort projection *)

Module MaturityFacts.
Import Lag Maturity.

Lemma guard_rateOf (num : Q) (den : N) :
  (if (0 <? den)%N then (num / QN den)%Q else 0%Q) = rateOf num den.
Proof. unfold rateOf. destruct den; reflexivity. Qed.

Lemma perm_filter {A} (f : A -> bool) (l l' : list A) :
  Permutation l l' -> Permutation (filter f l) (filter f l').
Proof.
  induction 1; simpl.
  - constructor.
  - destruct (f x); auto.
  - destruct (f x), (f y); auto using perm_swap.
  - eauto using Permutation_trans.
Qed.

Lemma sumN_perm (l l' : list N) : Permutation l l' -> sumN l = sumN l'.
Proof.
  induction 1; simpl; unfold sumN in *; simpl in *; lia.
Qed.

Lemma accumulate_split (rows : list DailyProjectionRow) (f m r : ProjectionBucket) :
  fold_left accumulate rows (f, m, r) =
  (fold_left addToBucket (filter (phaseb finalized) rows) f,
   fold_left addToBucket (filter (phaseb mature) rows) m,
   fold_left addToBucket (filter (phaseb rampup) rows) r).
Proof.
  revert f m r; induction rows as [|x xs IH]; intros f m r; simpl; [reflexivity|].
  unfold phaseb at 1 3 5. destruct (phase x); simpl; rewrite IH; reflexivity.
Qed.

Lemma addToBucket_volume (l : list DailyProjectionRow) (b : ProjectionBucket) :
  bvolume (fold_left addToBucket l b) = (bvolume b + sumN (map sales l))%N.
Proof.
  revert b; induction l as [|x xs IH]; intros b; simpl; [unfold sumN; simpl; lia|].
  rewrite IH. simpl. unfold sumN; simpl. lia.
Qed.

(** What [projectDay] computes for one cohort day. *)
Lemma projectDay_spec (mk : Markers) (dist : list LagBucket) (sTime : Z)
      (e : Z * DayStats) :
  let r := projectDay mk dist sTime e in
  lagPct r = getCumulativePct dist (age r) /\
  (phase r = finalized <-> p90_value mk < age r) /\
  (phase r = mature <-> d_value mk <= age r <= p90_value mk) /\
  (phase r = rampup <-> age r < d_value mk /\ age r <= p90_value mk) /\
  (phase r <> rampup ->
     forecastAdd r = (if Qltb (1 # 100) (lagPct r)
                      then Qmax 0 (QN (realized r) / lagPct r - QN (realized r)) else 0%Q) /\
     projectedTotal r = (QN (realized r) + forecastAdd r)%Q) /\
  (phase r = rampup -> forecastAdd r = 0%Q /\ projectedTotal r = QN (realized r)) /\
  currentRate r = rateOf (QN (realized r)) (sales r) /\
  projectedRate r = rateOf (projectedTotal r) (sales r).
Proof.
  destruct e as [d st]. unfold projectDay. cbv zeta.
  destruct (sTime - pTime st >? p90_value mk) eqn:H1;
  [|destruct (sTime - pTime st >=? d_value mk) eqn:H2];
  simpl; rewrite ?guard_rateOf;
  rewrite ?Z.gtb_lt, ?Z.geb_le in *;
  try rewrite Z.gtb_ltb, Z.ltb_ge in H1;
  try rewrite Z.geb_leb, Z.leb_gt in H2;
  repeat split; try discriminate; try lia; try reflexivity; intros; try lia;
  try congruence.
Qed.

Lemma Qle_plus_nonneg (a b : Q) : (0 <= b)%Q -> (a <= a + b)%Q.
Proof.
  intros Hb. rewrite <- (Qplus_0_r a) at 1. apply Qplus_le_compat; [apply Qle_refl|exact Hb].
Qed.

Lemma grossUp_nonneg (c r : Q) :
  (0 <= (if Qltb (1 # 100) c then Qmax 0 (r / c - r) else 0%Q))%Q.
Proof.
  destruct (Qltb (1 # 100) c); [apply Q.le_max_l|apply Qle_refl].
Qed.

(** Unfolding a successful [analyzeMaturity]. *)
Lemma analyzeMaturity_inv (data : AppData) (res : MaturityAnalysisResult) :
  analyzeMaturity data = Some res ->
  exists orders t0Time rows,
    return_order data = Some orders /\ t0Date data = Some t0Time /\
    let span := spanOf (comparisonSpan data) in
    let ls := lags orders t0Time in
    let mk := markers ls in
    let dist := distribution ls (p90_value mk) in
    let projectionSubset := filter (fun o => (t0Time <=? purchase_date o) &&
                                             (purchase_date o <? t0Time + span)) orders in
    rows = map (projectDay mk dist (latestPurchase orders)) (dailyMap projectionSubset) /\
    let refSubset := filter (fun o => (t0Time - span <=? purchase_date o) &&
                                      (purchase_date o <? t0Time)) orders in
    let fin := fold_left addToBucket (filter (phaseb finalized) rows) emptyBucket in
    let mat := fold_left addToBucket (filter (phaseb mature) rows) emptyBucket in
    let ramp := fold_left addToBucket (filter (phaseb rampup) rows) emptyBucket in
    let sm := summarize fin mat ramp in
    dv res = d_value mk /\ p20v res = p20_value mk /\ p90v res = p90_value mk /\
    lagDistribution res = dist /\
    Permutation (dailyProjections res) rows /\
    buckets (projection res) = [fin; mat; ramp] /\
    projectedRateP (projection res) = sm_projection_rate sm /\
    confidenceScore res = sm_confidence sm /\
    maturityStatus res = sm_status sm /\
    metricsPre res = calcStats (preSubset orders t0Time) /\
    metricsReference res = calcStats refSubset /\
    metricsPostMature res = calcStats projectionSubset /\
    metricsPostNominal res = calcStats projectionSubset /\
    baselineRate (projection res) = rate (calcStats (preSubset orders t0Time)).
Proof.
  unfold analyzeMaturity. intros H.
  destruct (return_order data) as [[|o os]|] eqn:Ho; try discriminate H.
  destruct (t0Date data) as [t0Time|] eqn:Ht; try discriminate H.
  exists (o :: os), t0Time. eexists. split; [reflexivity|]. split; [reflexivity|].
  cbv zeta in H |- *. split; [reflexivity|]. rewrite accumulate_split in H.
  injection H as <-. simpl.
  repeat split; try reflexivity. apply sort_by_perm.
Qed.

End MaturityFacts.

Lemma Qltb_iff (x y : Q) : Qltb x y = true <-> (x < y)%Q.
Proof.
  unfold Qltb. destruct (Qle_bool y x) eqn:E; simpl.
  - apply Qle_bool_iff in E. split; [discriminate|].
    intros H. exfalso. exact (Qlt_not_le _ _ H E).
  - split; [intros _|reflexivity].
    apply Qnot_le_lt. intros H. apply Qle_bool_iff in H. congruence.
Qed.

Lemma in_dailyProjections (data : AppData) (res : Maturity.MaturityAnalysisResult)
      (row : Maturity.DailyProjectionRow) :
  Maturity.analyzeMaturity data = Some res ->
  In row (Maturity.dailyProjections res) ->
  exists orders t0Time e,
    return_order data = Some orders /\ t0Date data = Some t0Time /\
    let mk := Lag.markers (Lag.lags orders t0Time) in
    let dist := Lag.distribution (Lag.lags orders t0Time) (Lag.p90_value mk) in
    row = Maturity.projectDay mk dist (latestPurchase orders) e /\
    Maturity.dv res = Lag.d_value mk /\ Maturity.p90v res = Lag.p90_value mk /\
    Maturity.lagDistribution res = dist.
Proof.
  intros Hres Hin.
  destruct (MaturityFacts.analyzeMaturity_inv _ _ Hres)
    as (orders & t0Time & rows & Ho & Ht & Hrows & Hd & _ & Hp90 & Hdist & Hperm & _).
  subst rows. apply (Permutation_in _ Hperm), in_map_iff in Hin. destruct Hin as (e & <- & _).
  exists orders, t0Time, e. repeat split; assumption.
Qed.

(** ** Claim C3 *)

(** C3: every cohort day of the forecast window (a row of
    [dailyProjections]) is ramp-up when age < P50, mature when
    P50 <= age <= P90, finalized when age > P90. Mature and finalized days are
    grossed up: forecast_add = max(0, realized/fraction - realized) when the
    day's cumulative fraction exceeds 0.01, 0 otherwise, and
    projected_total = realized + forecast_add >= realized. Ramp-up days have
    forecast_add = 0 and projected_total = realized. *)
Theorem C3_cohort_gross_up (data : AppData) (res : Maturity.MaturityAnalysisResult)
    (row : Maturity.DailyProjectionRow)
    (Hres : Maturity.analyzeMaturity data = Some res)
    (Hin : In row (Maturity.dailyProjections res)) :
  let realizedQ := QN (Maturity.realized row) in
  Maturity.lagPct row = Lag.getCumulativePct (Maturity.lagDistribution res) (Maturity.age row) /\
  (Maturity.phase row = Maturity.rampup <-> Maturity.age row < Maturity.dv res) /\
  (Maturity.phase row = Maturity.mature <->
     Maturity.dv res <= Maturity.age row <= Maturity.p90v res) /\
  (Maturity.phase row = Maturity.finalized <-> Maturity.p90v res < Maturity.age row) /\
  ((Maturity.phase row = Maturity.mature \/ Maturity.phase row = Maturity.finalized) ->
     ((1 # 100 < Maturity.lagPct row)%Q ->
        Maturity.forecastAdd row = Qmax 0 (realizedQ / Maturity.lagPct row - realizedQ)) /\
     ((Maturity.lagPct row <= 1 # 100)%Q -> Maturity.forecastAdd row = 0%Q) /\
     Maturity.projectedTotal row = (realizedQ + Maturity.forecastAdd row)%Q /\
     (realizedQ <= Maturity.projectedTotal row)%Q) /\
  (Maturity.phase row = Maturity.rampup ->
     Maturity.forecastAdd row = 0%Q /\ Maturity.projectedTotal row = realizedQ).
Proof.
  destruct (in_dailyProjections _ _ _ Hres Hin)
    as (orders & t0Time & e & _ & _ & Hrow & Hd & Hp90 & Hdist).
  pose proof (markers_bounds (Lag.lags orders t0Time)) as Hb. cbv zeta in Hb |- *.
  rewrite Hd, Hp90, Hdist. subst row.
  destruct (MaturityFacts.projectDay_spec
              (Lag.markers (Lag.lags orders t0Time))
              (Lag.distribution (Lag.lags orders t0Time)
                 (Lag.p90_value (Lag.markers (Lag.lags orders t0Time))))
              (latestPurchase orders) e)
    as (Hlag & Hfin & Hmat & Hramp & Hgross & Hrampv & _). cbv zeta in *.
  set (r := Maturity.projectDay _ _ _ e) in *.
  split; [exact Hlag|].
  split; [rewrite Hramp; lia|].
  split; [exact Hmat|].
  split; [exact Hfin|].
  split; [|exact Hrampv].
  intros Hph. assert (Hnr : Maturity.phase r <> Maturity.rampup)
    by (destruct Hph as [-> | ->]; discriminate).
  destruct (Hgross Hnr) as [Hf Ht].
  split; [|split; [|split]].
  - intros Hlt. rewrite Hf. apply Qltb_iff in Hlt. rewrite Hlt. reflexivity.
  - intros Hle. rewrite Hf.
    destruct (Qltb (1 # 100) (Maturity.lagPct r)) eqn:E; [|reflexivity].
    apply Qltb_iff in E. exfalso. exact (Qlt_not_le _ _ E Hle).
  - exact Ht.
  - rewrite Ht. apply MaturityFacts.Qle_plus_nonneg. rewrite Hf.
    apply MaturityFacts.grossUp_nonneg.
Qed.

Lemma C3_cohort_gross_up_witness :
  exists res row,
    Maturity.analyzeMaturity Samples.data2 = Some res /\
    In row (Maturity.dailyProjections res) /\
    Maturity.phase row = Maturity.mature /\
    (QN (Maturity.realized row) <= Maturity.projectedTotal row)%Q.
Proof.
  eexists. exists {| Maturity.date := 112; Maturity.age := 8;
                     Maturity.phase := Maturity.mature; Maturity.sales := 20;
                     Maturity.realized := 3; Maturity.currentRate := 3 # 20;
                     Maturity.lagPct := 96 # 128; Maturity.algorithm := Maturity.gross_up;
                     Maturity.weight := 1; Maturity.forecastAdd := 96 # 96;
                     Maturity.projectedTotal := 384 # 96;
                     Maturity.projectedRate := 384 # 1920 |}.
  split; [reflexivity|].
  match goal with
  | |- In ?r (Maturity.dailyProjections ?res) /\ _ =>
      assert (Hin : In r (Maturity.dailyProjections res)) by (vm_compute; auto);
      split; [exact Hin|]; split; [reflexivity|];
      destruct (C3_cohort_gross_up Samples.data2 res r eq_refl Hin)
        as (_ & _ & _ & _ & Hg & _)
  end.
  apply Hg. left. reflexivity.
Defined.

Lemma sum_sales_perm (ph : Maturity.Phase) (l l' : list Maturity.DailyProjectionRow) :
  Permutation l l' ->
  sumN (map Maturity.sales (filter (Maturity.phaseb ph) l)) =
  sumN (map Maturity.sales (filter (Maturity.phaseb ph) l')).
Proof.
  intros H. apply MaturityFacts.sumN_perm, Permutation_map, MaturityFacts.perm_filter, H.
Qed.

(** ** Claim C5 *)

(** C5: the three projection buckets (finalized, mature, ramp-up) hold the
    sales of the daily rows of their phase; with reliable volume
    rv = finalized + mature volume and total volume tv = rv + ramp-up volume,
    projectedRate is (reliable realized + reliable forecast) / rv, and null
    when rv = 0; confidenceScore is rv / tv (0 when tv = 0); maturityStatus is
    'projecting' exactly when confidenceScore >= 0.5, else 'insufficient'. *)
Theorem C5_projection_rollup (data : AppData) (res : Maturity.MaturityAnalysisResult)
    (Hres : Maturity.analyzeMaturity data = Some res) :
  exists fin mat ramp : Maturity.ProjectionBucket,
    Maturity.buckets (Maturity.projection res) = [fin; mat; ramp] /\
    Maturity.bvolume fin = sumN (map Maturity.sales
        (filter (Maturity.phaseb Maturity.finalized) (Maturity.dailyProjections res))) /\
    Maturity.bvolume mat = sumN (map Maturity.sales
        (filter (Maturity.phaseb Maturity.mature) (Maturity.dailyProjections res))) /\
    Maturity.bvolume ramp = sumN (map Maturity.sales
        (filter (Maturity.phaseb Maturity.rampup) (Maturity.dailyProjections res))) /\
    let rv := (Maturity.bvolume fin + Maturity.bvolume mat)%N in
    let tv := (rv + Maturity.bvolume ramp)%N in
    (rv = 0%N -> Maturity.projectedRateP (Maturity.projection res) = None) /\
    (rv <> 0%N -> exists q,
       Maturity.projectedRateP (Maturity.projection res) = Some q /\
       (q == (QN (Maturity.realizedReturns fin + Maturity.realizedReturns mat)
              + (Maturity.forecastedReturns fin + Maturity.forecastedReturns mat)) / QN rv)%Q) /\
    Maturity.confidenceScore res = rateOf (QN rv) tv /\
    (Maturity.maturityStatus res = Maturity.projecting <->
       (1 # 2 <= Maturity.confidenceScore res)%Q) /\
    (Maturity.maturityStatus res = Maturity.insufficient <->
       (Maturity.confidenceScore res < 1 # 2)%Q).
Proof.
  destruct (MaturityFacts.analyzeMaturity_inv _ _ Hres)
    as (orders & t0Time & rows & _ & _ & _ & _ & _ & _ & _ & Hperm & Hb & Hpr & Hconf & Hst & _).
  cbv zeta in *. clear Hres.
  set (fin := fold_left Maturity.addToBucket
                (filter (Maturity.phaseb Maturity.finalized) rows) Maturity.emptyBucket) in *.
  set (mat := fold_left Maturity.addToBucket
                (filter (Maturity.phaseb Maturity.mature) rows) Maturity.emptyBucket) in *.
  set (ramp := fold_left Maturity.addToBucket
                (filter (Maturity.phaseb Maturity.rampup) rows) Maturity.emptyBucket) in *.
  exists fin, mat, ramp. split; [exact Hb|].
  rewrite !(sum_sales_perm _ _ _ Hperm).
  split; [unfold fin; rewrite MaturityFacts.addToBucket_volume; reflexivity|].
  split; [unfold mat; rewrite MaturityFacts.addToBucket_volume; reflexivity|].
  split; [unfold ramp; rewrite MaturityFacts.addToBucket_volume; reflexivity|].
  unfold Maturity.summarize in Hpr, Hconf, Hst. cbv zeta in Hpr, Hconf, Hst.
  cbn [Maturity.sm_confidence Maturity.sm_projection_rate Maturity.sm_status] in Hpr, Hconf, Hst.
  rewrite !N.add_0_l in Hpr, Hconf, Hst.
  assert (Hc : Maturity.confidenceScore res =
               rateOf (QN (Maturity.bvolume fin + Maturity.bvolume mat))
                      (Maturity.bvolume fin + Maturity.bvolume mat + Maturity.bvolume ramp))
    by (rewrite Hconf; apply MaturityFacts.guard_rateOf).
  split; [|split; [|split; [exact Hc|]]].
  - intros H0. rewrite Hpr, H0. reflexivity.
  - intros H0. rewrite Hpr.
    destruct (0 <? Maturity.bvolume fin + Maturity.bvolume mat)%N eqn:E;
      [|apply N.ltb_ge in E; lia].
    eexists. split; [reflexivity|].
    rewrite Qplus_0_l. reflexivity.
  - rewrite Hst. rewrite <- Hconf.
    destruct (Qle_bool (1 # 2) (Maturity.confidenceScore res)) eqn:E.
    + apply Qle_bool_iff in E. split; [split; [intros; exact E|intros; reflexivity]|].
      split; [discriminate|]. intros Hlt. exfalso. exact (Qlt_not_le _ _ Hlt E).
    + split; split; try discriminate.
      * intros Hle. apply Qle_bool_iff in Hle. congruence.
      * intros _. apply Qnot_le_lt. intros Hle. apply Qle_bool_iff in Hle. congruence.
      * intros; reflexivity.
Qed.

Lemma C5_projection_rollup_witness :
  exists res, Maturity.analyzeMaturity Samples.data2 = Some res /\
    Maturity.maturityStatus res = Maturity.projecting /\
    exists fin mat ramp, Maturity.buckets (Maturity.projection res) = [fin; mat; ramp] /\
      Maturity.confidenceScore res =
        rateOf (QN (Maturity.bvolume fin + Maturity.bvolume mat))
               (Maturity.bvolume fin + Maturity.bvolume mat + Maturity.bvolume ramp).
Proof.
  eexists. split; [reflexivity|]. split; [reflexivity|].
  match goal with
  | |- exists _ _ _, Maturity.buckets (Maturity.projection ?res) = _ /\ _ =>
      destruct (C5_projection_rollup Samples.data2 res eq_refl)
        as (fin & mat & ramp & Hb & _ & _ & _ & _ & _ & Hc & _)
  end.
  exists fin, mat, ramp. split; [exact Hb|exact Hc].
Defined.

Lemma grossUp_at_one (r : Q) :
  ((if Qltb (1 # 100) 1 then Qmax 0 (r / 1 - r) else 0%Q) == 0)%Q.
Proof.
  change (Qltb (1 # 100) 1) with true. cbv iota.
  assert (Hz : (r / 1 - r == 0)%Q) by field.
  rewrite Hz. reflexivity.
Qed.

(** ** Claim C6 *)

(** C6: when the baseline window yields no lag sample, the markers are the
    defaults P20=4, P50=14, P90=30, the histogram is empty, the
    cumulative-fraction lookup returns 1 at every age, and so every cohort
    day reads fraction 1, gets no forecast addition and keeps its realized
    count as projected total. *)
Theorem C6_degenerate_distribution (data : AppData) (orders : list RawOrderRow)
    (t0Time : Z) (res : Maturity.MaturityAnalysisResult)
    (Horders : return_order data = Some orders) (Ht0 : t0Date data = Some t0Time)
    (Hempty : Lag.lags orders t0Time = [])
    (Hres : Maturity.analyzeMaturity data = Some res) :
  Maturity.p20v res = 4 /\ Maturity.dv res = 14 /\ Maturity.p90v res = 30 /\
  Maturity.lagDistribution res = [] /\
  (forall a : Z, Lag.getCumulativePct (Maturity.lagDistribution res) a = 1%Q) /\
  (forall row, In row (Maturity.dailyProjections res) ->
     Maturity.lagPct row = 1%Q /\ (Maturity.forecastAdd row == 0)%Q /\
     (Maturity.projectedTotal row == QN (Maturity.realized row))%Q).
Proof.
  destruct (MaturityFacts.analyzeMaturity_inv _ _ Hres)
    as (orders' & t0' & rows & Ho & Ht & Hrows & Hd & H20 & Hp90 & Hdist & Hperm & _).
  rewrite Horders in Ho. injection Ho as <-. rewrite Ht0 in Ht. injection Ht as <-.
  cbv zeta in *. rewrite Hempty in Hd, H20, Hp90, Hdist, Hrows.
  rewrite Hd, H20, Hp90, Hdist.
  split; [reflexivity|]. split; [reflexivity|]. split; [reflexivity|].
  split; [reflexivity|]. split; [intros a; reflexivity|].
  intros row Hin. apply (Permutation_in _ Hperm) in Hin. subst rows.
  apply in_map_iff in Hin. destruct Hin as (e & <- & _).
  destruct (MaturityFacts.projectDay_spec (Lag.markers []) (Lag.distribution [] 30)
              (latestPurchase orders) e)
    as (Hlag & _ & _ & _ & Hgross & Hramp & _).
  cbv zeta in *.
  set (r := Maturity.projectDay _ _ _ e) in *.
  assert (H1 : Maturity.lagPct r = 1%Q) by (rewrite Hlag; reflexivity).
  split; [exact H1|].
  destruct (Maturity.phase r) eqn:Eph.
  - destruct (Hramp eq_refl) as [-> ->]. split; reflexivity.
  - destruct (Hgross ltac:(discriminate)) as [Hf Ht].
    rewrite H1 in Hf.
    assert (Hz : (Maturity.forecastAdd r == 0)%Q) by (rewrite Hf; apply grossUp_at_one).
    split; [exact Hz|]. rewrite Ht, Hz. apply Qplus_0_r.
  - destruct (Hgross ltac:(discriminate)) as [Hf Ht].
    rewrite H1 in Hf.
    assert (Hz : (Maturity.forecastAdd r == 0)%Q) by (rewrite Hf; apply grossUp_at_one).
    split; [exact Hz|]. rewrite Ht, Hz. apply Qplus_0_r.
Qed.

Lemma C6_degenerate_distribution_witness :
  Lag.lags Samples.orders3 100 = [] /\
  exists res, Maturity.analyzeMaturity Samples.data3 = Some res /\
    Maturity.dv res = 14 /\ Maturity.lagDistribution res = [].
Proof.
  split; [reflexivity|].
  eexists. split; [reflexivity|].
  match goal with
  | |- Maturity.dv ?res = _ /\ _ =>
      destruct (C6_degenerate_distribution Samples.data3 Samples.orders3 100 res
                  eq_refl eq_refl eq_refl eq_refl) as (_ & Hd & _ & Hdist & _)
  end.
  split; [exact Hd|exact Hdist].
Defined.

(** ** Fairness loop *)

Module ContrastFacts.
Import Contrast.

Lemma sumN_cons (x : N) (l : list N) : sumN (x :: l) = (x + sumN l)%N.
Proof. reflexivity. Qed.

Lemma sumN_app (l l' : list N) : sumN (l ++ l') = (sumN l + sumN l')%N.
Proof.
  induction l as [|x l IH]; simpl; [reflexivity|]. unfold sumN in *; simpl. lia.
Qed.

Lemma afterPass_sums (os : list RawOrderRow) (dc : Z) (s r : N) (vel : list N) :
  fst (fst (afterPass os dc s r vel)) = (s + sumN (map units_sold os))%N /\
  snd (fst (afterPass os dc s r vel)) = (r + sumN (map getReturnCount os))%N.
Proof.
  revert s r vel; induction os as [|o os IH]; intros s r vel; simpl.
  - unfold sumN; simpl. split; lia.
  - destruct (0 <? getReturnCount o)%N eqn:E.
    + destruct (IH (s + units_sold o)%N (r + getReturnCount o)%N
                   (match getLag o with
                    | Some lag => if (lag >=? 0) && (lag <? dc)
                                  then addAt vel (Z.to_nat lag) (getReturnCount o) else vel
                    | None => vel end)) as [H1 H2].
      rewrite H1, H2. unfold sumN; simpl. split; lia.
    + apply N.ltb_ge in E.
      destruct (IH (s + units_sold o)%N r vel) as [H1 H2].
      rewrite H1, H2. unfold sumN; simpl. split; lia.
Qed.

Lemma beforePass_sums (os : list RawOrderRow) (dc L : Z) (s r : N) (vel : list N) :
  fst (fst (beforePass os dc L s r vel)) = (s + sumN (map units_sold os))%N /\
  snd (fst (beforePass os dc L s r vel)) =
    (r + sumN (map getReturnCount (filter (lagWithin L) os)))%N.
Proof.
  revert s r vel; induction os as [|o os IH]; intros s r vel; simpl.
  - unfold sumN; simpl. split; lia.
  - unfold lagWithin at 1.
    destruct (0 <? getReturnCount o)%N eqn:E.
    + destruct (getLag o) as [lag|].
      * destruct (lag <=? L).
        -- match goal with
           | |- context [beforePass os dc L ?s1 ?r1 ?v1] =>
               destruct (IH s1 r1 v1) as [H1 H2]
           end.
           rewrite H1, H2. unfold sumN; simpl. split; lia.
        -- destruct (IH (s + units_sold o)%N r vel) as [H1 H2].
           rewrite H1, H2. unfold sumN; simpl. split; lia.
      * destruct (IH (s + units_sold o)%N r vel) as [H1 H2].
        rewrite H1, H2. unfold sumN; simpl. split; lia.
    + apply N.ltb_ge in E. assert (E0 : getReturnCount o = 0%N) by lia.
      destruct (IH (s + units_sold o)%N r vel) as [H1 H2].
      rewrite H1, H2. split; [unfold sumN; simpl; lia|].
      destruct (getLag o); [destruct (_ <=? L)|]; unfold sumN; simpl; lia.
Qed.

Lemma loop_fold (orders : list RawOrderRow) (t0Time maxTime dc : Z)
      (l : list nat) (st : LoopState) :
  let st' := fold_left (loopStep orders t0Time maxTime dc) l st in
  let rows := map (rowAt orders t0Time maxTime dc) l in
  dailyRows st' = dailyRows st ++ rows /\
  afterTotalSales st' = (afterTotalSales st + sumN (map rsales rows))%N /\
  afterTotalReturns st' = (afterTotalReturns st + sumN (map rreturns rows))%N /\
  beforeTotalSales st' = (beforeTotalSales st + sumN (map refSales rows))%N /\
  beforeTotalReturns st' = (beforeTotalReturns st + sumN (map refReturns rows))%N.
Proof.
  revert st; induction l as [|i l IH]; intros st; cbv zeta; simpl.
  - rewrite app_nil_r. unfold sumN; simpl. repeat split; lia.
  - destruct (IH (loopStep orders t0Time maxTime dc st i)) as (H1 & H2 & H3 & H4 & H5).
    rewrite H1, H2, H3, H4, H5. clear IH H1 H2 H3 H4 H5.
    unfold loopStep.
    destruct (afterPass_sums (filter (fun o => purchase_date o =? t0Time + 1 + Z.of_nat i) orders)
                dc 0 0 (afterVelocity st)) as [A1 A2].
    destruct (afterPass _ _ _ _ _) as [[sa ra] av]. simpl in A1, A2.
    destruct (beforePass_sums (filter (fun o => purchase_date o =? t0Time - dc + Z.of_nat i) orders)
                dc (maxTime - (t0Time + 1 + Z.of_nat i)) 0 0 (beforeVelocity st)) as [B1 B2].
    destruct (beforePass _ _ _ _ _ _) as [[sb rb] bv]. simpl in B1, B2.
    simpl. rewrite <- app_assoc. subst sa ra sb rb.
    unfold rowAt. simpl. unfold sumN; simpl. repeat split; lia.
Qed.

(** Unfolding a successful [analyzeContrast]. *)
Lemma analyzeContrast_inv (data : AppData) (res : ContrastResult) :
  analyzeContrast data = Some res ->
  exists orders t0Time,
    return_order data = Some orders /\ t0Date data = Some t0Time /\
    t0Time < latestPurchase orders /\
    let rows := map (rowAt orders t0Time (latestPurchase orders) (runDays res))
                    (seq 0 (Z.to_nat (runDays res))) in
    hasData res = true /\
    runDays res = latestPurchase orders - t0Time /\
    cs res = latestPurchase orders /\ ct0 res = t0Time /\
    Permutation (dailyBreakdown res) rows /\
    csales (after res) = sumN (map rsales rows) /\
    creturns (after res) = sumN (map rreturns rows) /\
    csales (before res) = sumN (map refSales rows) /\
    creturns (before res) = sumN (map refReturns rows) /\
    crate (after res) = rateOf (QN (creturns (after res))) (csales (after res)) /\
    crate (before res) = rateOf (QN (creturns (before res))) (csales (before res)) /\
    exists aVel bVel,
      velocityChart res = velocityLoop (csales (after res)) (csales (before res))
                                       aVel bVel 0 0 0 (Z.to_nat (runDays res)).
Proof.
  unfold analyzeContrast. intros H.
  destruct (return_order data) as [[|o os]|] eqn:Ho; try discriminate H.
  destruct (t0Date data) as [t0Time|] eqn:Ht; try discriminate H.
  destruct (latestPurchase (o :: os) <=? t0Time) eqn:Hle; [discriminate H|].
  apply Z.leb_gt in Hle.
  exists (o :: os), t0Time. split; [reflexivity|]. split; [reflexivity|]. split; [exact Hle|].
  cbv zeta in H |- *.
  match type of H with
  | context [fold_left ?f ?l ?st0] =>
      destruct (loop_fold (o :: os) t0Time (latestPurchase (o :: os))
                  (latestPurchase (o :: os) - (t0Time + 1) + 1) l st0)
        as (H1 & H2 & H3 & H4 & H5);
      cbv zeta in H1, H2, H3, H4, H5;
      destruct (fold_left f l st0) as [aS aR bS bR drows aV bV]
  end.
  simpl in H1, H2, H3, H4, H5. injection H as <-. simpl.
  replace (latestPurchase (o :: os) - (t0Time + 1) + 1) with (latestPurchase (o :: os) - t0Time)
    in * by lia.
  rewrite H1, H2, H3, H4, H5.
  repeat split; try reflexivity; try (apply MaturityFacts.guard_rateOf).
  - apply sort_by_perm.
  - eexists; eexists; reflexivity.
Qed.

Lemma velocityLoop_rates (aS bS : N) (aV bV : list N) (d : nat) (cA cB : N) (fuel : nat)
      (v : VelocityPoint) :
  In v (velocityLoop aS bS aV bV d cA cB fuel) ->
  exists ca cb, afterRate v = rateOf (QN ca) aS /\ beforeRate v = rateOf (QN cb) bS.
Proof.
  revert d cA cB; induction fuel as [|f IH]; intros d cA cB Hin; simpl in Hin; [contradiction|].
  destruct Hin as [<- | Hin]; [|exact (IH _ _ _ Hin)].
  eexists; eexists; simpl; split; apply MaturityFacts.guard_rateOf.
Qed.

End ContrastFacts.

Lemma filter_filter_and {A} (f g : A -> bool) (l : list A) :
  filter g (filter f l) = filter (fun x => f x && g x) l.
Proof.
  induction l as [|x l IH]; simpl; [reflexivity|].
  destruct (f x); simpl; [destruct (g x); simpl; rewrite IH; reflexivity|exact IH].
Qed.

Lemma sumN_map_perm {A} (f : A -> N) (l l' : list A) :
  Permutation l l' -> sumN (map f l) = sumN (map f l').
Proof. intros H. apply MaturityFacts.sumN_perm, Permutation_map, H. Qed.

(** ** Claim C1 *)

(** With cutoff 2024-03-01 and latest purchase 2024-03-01 the contrast
    engine returns no result at all ([null]), not a result whose [hasData]
    is false. *)
Lemma C1_counterexample :
  Contrast.analyzeContrast Samples.data4 = None /\
  ~ (exists r, Contrast.analyzeContrast Samples.data4 = Some r /\ Contrast.hasData r = false).
Proof.
  split; [reflexivity|]. intros (r & H & _). discriminate H.
Qed.

(** C1 (amended): when S, the latest purchase date of a non-empty order
    list, is on or before the cutoff T0, [analyzeContrast] returns [null]
    (an absent result, not an exception); every result it does return has
    [hasData = true]; for cutoff 2024-03-01 with S = 2024-03-01 it returns
    [null]. *)
Theorem C1_no_after_window_is_null :
  (forall (data : AppData) (orders : list RawOrderRow) (t0Time : Z),
     return_order data = Some orders -> t0Date data = Some t0Time ->
     latestPurchase orders <= t0Time ->
     Contrast.analyzeContrast data = None) /\
  (forall (data : AppData) (res : Contrast.ContrastResult),
     Contrast.analyzeContrast data = Some res -> Contrast.hasData res = true) /\
  Contrast.analyzeContrast Samples.data4 = None.
Proof.
  split; [|split; [|reflexivity]].
  - intros data orders t0Time Ho Ht Hle. unfold Contrast.analyzeContrast.
    rewrite Ho, Ht. destruct orders as [|o os]; [reflexivity|].
    apply Z.leb_le in Hle. rewrite Hle. reflexivity.
  - intros data res H.
    destruct (ContrastFacts.analyzeContrast_inv _ _ H) as (orders & t0Time & _ & _ & _ & Hd & _).
    exact Hd.
Qed.

Lemma C1_no_after_window_is_null_witness :
  return_order Samples.data4 = Some [ Samples.row 1 19760 (Some 19770) 4 None;
                                      Samples.row 2 19783 None 6 None ] /\
  latestPurchase [ Samples.row 1 19760 (Some 19770) 4 None;
                   Samples.row 2 19783 None 6 None ] <= 19783 /\
  Contrast.analyzeContrast Samples.data4 = None.
Proof.
  split; [reflexivity|]. split; [vm_compute; discriminate|].
  apply (proj1 C1_no_after_window_is_null Samples.data4
           [ Samples.row 1 19760 (Some 19770) 4 None; Samples.row 2 19783 None 6 None ]
           19783); [reflexivity|reflexivity|vm_compute; discriminate].
Defined.

(** ** Claim C10 *)

(** C10: a returned contrast result has exactly [runDays] breakdown rows,
    and its four totals are the sums of the rows' sales, returns,
    reference sales and reference returns. *)
Theorem C10_breakdown_reconstructs_totals (data : AppData) (res : Contrast.ContrastResult)
    (Hres : Contrast.analyzeContrast data = Some res) :
  Z.of_nat (length (Contrast.dailyBreakdown res)) = Contrast.runDays res /\
  Contrast.csales (Contrast.after res) = sumN (map Contrast.rsales (Contrast.dailyBreakdown res)) /\
  Contrast.creturns (Contrast.after res) = sumN (map Contrast.rreturns (Contrast.dailyBreakdown res)) /\
  Contrast.csales (Contrast.before res) = sumN (map Contrast.refSales (Contrast.dailyBreakdown res)) /\
  Contrast.creturns (Contrast.before res) = sumN (map Contrast.refReturns (Contrast.dailyBreakdown res)).
Proof.
  destruct (ContrastFacts.analyzeContrast_inv _ _ Hres)
    as (orders & t0Time & _ & _ & Hlt & _ & Hrun & _ & _ & Hperm & H1 & H2 & H3 & H4 & _).
  cbv zeta in *.
  rewrite H1, H2, H3, H4, !(sumN_map_perm _ _ _ Hperm).
  split; [|repeat split].
  rewrite (Permutation_length Hperm), length_map, length_seq. lia.
Qed.

Lemma C10_breakdown_reconstructs_totals_witness :
  exists res, Contrast.analyzeContrast Samples.data1 = Some res /\
    Z.of_nat (length (Contrast.dailyBreakdown res)) = Contrast.runDays res.
Proof.
  eexists. split; [reflexivity|].
  match goal with
  | |- Z.of_nat (length (Contrast.dailyBreakdown ?res)) = _ =>
      exact (proj1 (C10_breakdown_reconstructs_totals Samples.data1 res eq_refl))
  end.
Defined.

(** ** Claim C4 *)

(** C4: every breakdown row is day [i < runDays] of the loop: its date is
    T0+1+i, its mirrored before-day is T0-runDays+i, its age limit is
    L = S - date, and its reference returns are the effective return counts
    of exactly the orders bought on the before-day whose own lag is defined
    and at most L; so a return whose lag exceeds L never reaches
    [refReturns], and [before.returns] is the sum of the rows' [refReturns]. *)
Theorem C4_contrast_censorship (data : AppData) (orders : list RawOrderRow)
    (res : Contrast.ContrastResult)
    (Horders : return_order data = Some orders)
    (Hres : Contrast.analyzeContrast data = Some res) :
  (forall row, In row (Contrast.dailyBreakdown res) ->
     exists i : nat,
       Z.of_nat i < Contrast.runDays res /\
       Contrast.rdate row = Contrast.ct0 res + 1 + Z.of_nat i /\
       Contrast.matchedDate row = Contrast.ct0 res - Contrast.runDays res + Z.of_nat i /\
       Contrast.ageLimit row = Contrast.cs res - Contrast.rdate row /\
       Contrast.refReturns row =
         sumN (map getReturnCount
                 (filter (fun o => (purchase_date o =? Contrast.matchedDate row) &&
                                   Contrast.lagWithin (Contrast.ageLimit row) o) orders))) /\
  Contrast.creturns (Contrast.before res) =
    sumN (map Contrast.refReturns (Contrast.dailyBreakdown res)).
Proof.
  destruct (ContrastFacts.analyzeContrast_inv _ _ Hres)
    as (orders' & t0Time & Ho & _ & Hlt & _ & Hrun & Hs & Ht0 & Hperm & _ & _ & _ & H4 & _).
  rewrite Horders in Ho. injection Ho as <-.
  cbv zeta in *. split.
  - intros row Hin. apply (Permutation_in _ Hperm), in_map_iff in Hin.
    destruct Hin as (i & <- & Hi). apply in_seq in Hi.
    exists i. unfold Contrast.rowAt. simpl.
    rewrite Hs, Ht0, filter_filter_and.
    split; [lia|]. repeat split; reflexivity.
  - rewrite H4. apply sumN_map_perm. symmetry. exact Hperm.
Qed.

Lemma C4_contrast_censorship_witness :
  exists res, Contrast.analyzeContrast Samples.data1 = Some res /\
    Contrast.creturns (Contrast.before res) =
      sumN (map Contrast.refReturns (Contrast.dailyBreakdown res)).
Proof.
  eexists. split; [reflexivity|].
  match goal with
  | |- Contrast.creturns (Contrast.before ?res) = _ =>
      exact (proj2 (C4_contrast_censorship Samples.data1 Samples.orders1 res eq_refl eq_refl))
  end.
Defined.

(** ** Claim C9 *)

(** C9: every rate of both engines is returns over sales when sales are
    positive and 0 when sales are 0 (so no division by zero is ever taken):
    before.rate and after.rate, each velocity-chart rate (cumulative returns
    over that side's total sales), the four [MaturityMetrics] rates and the
    baseline rate, and each daily row's currentRate (realized / sales) and
    projectedRate (projected total / sales). *)
Theorem C9_rates_guarded (data : AppData) :
  (forall res, Contrast.analyzeContrast data = Some res ->
     Contrast.crate (Contrast.before res) =
       rateOf (QN (Contrast.creturns (Contrast.before res))) (Contrast.csales (Contrast.before res)) /\
     Contrast.crate (Contrast.after res) =
       rateOf (QN (Contrast.creturns (Contrast.after res))) (Contrast.csales (Contrast.after res)) /\
     (forall v, In v (Contrast.velocityChart res) ->
        exists ca cb : N,
          Contrast.afterRate v = rateOf (QN ca) (Contrast.csales (Contrast.after res)) /\
          Contrast.beforeRate v = rateOf (QN cb) (Contrast.csales (Contrast.before res)))) /\
  (forall res, Maturity.analyzeMaturity data = Some res ->
     (forall m, In m [Maturity.metricsPre res; Maturity.metricsReference res;
                      Maturity.metricsPostMature res; Maturity.metricsPostNominal res] ->
        Maturity.rate m = rateOf (QN (Maturity.returns m)) (Maturity.volume m)) /\
     Maturity.baselineRate (Maturity.projection res) = Maturity.rate (Maturity.metricsPre res) /\
     (forall row, In row (Maturity.dailyProjections res) ->
        Maturity.currentRate row = rateOf (QN (Maturity.realized row)) (Maturity.sales row) /\
        Maturity.projectedRate row = rateOf (Maturity.projectedTotal row) (Maturity.sales row))).
Proof.
  split.
  - intros res Hres.
    destruct (ContrastFacts.analyzeContrast_inv _ _ Hres)
      as (orders & t0Time & _ & _ & _ & _ & _ & _ & _ & _ & _ & _ & _ & _ & Ha & Hb & aV & bV & Hv).
    split; [exact Hb|]. split; [exact Ha|].
    intros v Hin. rewrite Hv in Hin.
    exact (ContrastFacts.velocityLoop_rates _ _ _ _ _ _ _ _ _ Hin).
  - intros res Hres.
    destruct (MaturityFacts.analyzeMaturity_inv _ _ Hres)
      as (orders & t0Time & rows & _ & _ & _ & _ & _ & _ & _ & _ & _ & _ & _ & _
          & Hpre & Href & Hpm & Hpn & Hbase).
    split; [|split].
    + intros m Hm. simpl in Hm.
      destruct Hm as [<- | [<- | [<- | [<- | []]]]];
        [rewrite Hpre | rewrite Href | rewrite Hpm | rewrite Hpn];
        unfold Maturity.calcStats; simpl; apply MaturityFacts.guard_rateOf.
    + rewrite Hbase, Hpre. reflexivity.
    + intros row Hin.
      destruct (in_dailyProjections _ _ _ Hres Hin)
        as (orders' & t0' & e & _ & _ & Hrow & _).
      cbv zeta in Hrow. subst row.
      destruct (MaturityFacts.projectDay_spec
                  (Lag.markers (Lag.lags orders' t0'))
                  (Lag.distribution (Lag.lags orders' t0')
                     (Lag.p90_value (Lag.markers (Lag.lags orders' t0'))))
                  (latestPurchase orders') e)
        as (_ & _ & _ & _ & _ & _ & Hc & Hp).
      split; [exact Hc|exact Hp].
Qed.

Lemma C9_rates_guarded_witness :
  (exists res, Contrast.analyzeContrast Samples.data2 = Some res /\
     Contrast.crate (Contrast.after res) =
       rateOf (QN (Contrast.creturns (Contrast.after res))) (Contrast.csales (Contrast.after res))) /\
  (exists res, Maturity.analyzeMaturity Samples.data2 = Some res /\
     Maturity.baselineRate (Maturity.projection res) = Maturity.rate (Maturity.metricsPre res)).
Proof.
  split.
  - eexists. split; [reflexivity|].
    match goal with
    | |- Contrast.crate (Contrast.after ?res) = _ =>
        exact (proj1 (proj2 (proj1 (C9_rates_guarded Samples.data2) res eq_refl)))
    end.
  - eexists. split; [reflexivity|].
    match goal with
    | |- Maturity.baselineRate (Maturity.projection ?res) = _ =>
        exact (proj1 (proj2 (proj2 (C9_rates_guarded Samples.data2) res eq_refl)))
    end.
Defined.

(** ** Further properties of the engines *)

Section SortSorted.
Context {A : Type} (cmp : A -> A -> Z) (R : A -> A -> Prop).
Hypothesis HR1 : forall x y, cmp x y < 0 -> R x y.
Hypothesis HR2 : forall x y, 0 <= cmp x y -> R y x.

Lemma insert_by_hd (y x : A) (l : list A) :
  R y x -> HdRel R y l -> HdRel R y (insert_by cmp x l).
Proof.
  intros Hyx Hl. destruct l as [|z zs]; simpl; [constructor; exact Hyx|].
  destruct (cmp x z <? 0); constructor; [exact Hyx|inversion Hl; assumption].
Qed.

Lemma insert_by_sorted (x : A) (l : list A) : Sorted R l -> Sorted R (insert_by cmp x l).
Proof.
  induction l as [|y ys IH]; intros Hs; simpl; [repeat constructor|].
  destruct (cmp x y <? 0) eqn:E.
  - apply Z.ltb_lt in E. constructor; [exact Hs|constructor; apply HR1; exact E].
  - apply Z.ltb_ge in E. inversion Hs; subst. constructor; [apply IH; assumption|].
    apply insert_by_hd; [apply HR2; exact E|assumption].
Qed.

Lemma sort_by_sorted (l : list A) : Sorted R (sort_by cmp l).
Proof.
  unfold sort_by.
  assert (H : forall acc, Sorted R acc ->
                Sorted R (fold_left (fun acc x => insert_by cmp x acc) l acc)).
  { induction l as [|x l IH]; intros acc Hacc; simpl; [exact Hacc|].
    apply IH, insert_by_sorted, Hacc. }
  apply H. constructor.
Qed.
End SortSorted.

Lemma latest_fold (orders : list RawOrderRow) (m : Z) :
  let r := fold_left (fun m o => if purchase_date o >? m then purchase_date o else m) orders m in
  m <= r /\ (forall o, In o orders -> purchase_date o <= r) /\
  (r = m \/ exists o, In o orders /\ purchase_date o = r).
Proof.
  revert m; induction orders as [|o os IH]; intros m; cbv zeta; simpl.
  - split; [lia|]. split; [intros _ []|left; reflexivity].
  - destruct (purchase_date o >? m) eqn:E.
    + destruct (IH (purchase_date o)) as (H1 & H2 & H3). cbv zeta in *.
      rewrite Z.gtb_lt in E. split; [lia|]. split.
      * intros o' [<-|Hin]; [exact H1|exact (H2 _ Hin)].
      * right. destruct H3 as [H3|(o' & Hin & H3)]; [exists o; auto|exists o'; auto].
    + destruct (IH m) as (H1 & H2 & H3). cbv zeta in *.
      rewrite Z.gtb_ltb, Z.ltb_ge in E. split; [exact H1|]. split.
      * intros o' [<-|Hin]; [lia|exact (H2 _ Hin)].
      * destruct H3 as [H3|(o' & Hin & H3)]; [left; exact H3|right; exists o'; auto].
Qed.

(** [S] ([maxTime] in both engines, folded from 0) is at least 0, bounds
    every purchase date from above, and is either 0 or the purchase date of
    some order. *)
Theorem X_latestPurchase_is_max (orders : list RawOrderRow) :
  0 <= latestPurchase orders /\
  (forall o, In o orders -> purchase_date o <= latestPurchase orders) /\
  (latestPurchase orders = 0 \/
   exists o, In o orders /\ purchase_date o = latestPurchase orders).
Proof. exact (latest_fold orders 0). Qed.

Lemma fold_minStep (l : list RawOrderRow) (m : Z) :
  exists r, fold_left Timeline.minStep l (Some m) = Some r /\ r <= m /\
    (forall o, In o l -> r <= purchase_date o) /\
    (r = m \/ exists o, In o l /\ purchase_date o = r).
Proof.
  revert m; induction l as [|o l IH]; intros m; simpl.
  - exists m. split; [reflexivity|]. split; [lia|]. split; [intros _ []|left; reflexivity].
  - destruct (purchase_date o <? m) eqn:E.
    + destruct (IH (purchase_date o)) as (r & H0 & H1 & H2 & H3).
      apply Z.ltb_lt in E. exists r. split; [exact H0|]. split; [lia|]. split.
      * intros o' [<-|Hin]; [exact H1|exact (H2 _ Hin)].
      * right. destruct H3 as [H3|(o' & Hin & H3)]; [exists o; auto|exists o'; auto].
    + destruct (IH m) as (r & H0 & H1 & H2 & H3).
      apply Z.ltb_ge in E. exists r. split; [exact H0|]. split; [exact H1|]. split.
      * intros o' [<-|Hin]; [lia|exact (H2 _ Hin)].
      * destruct H3 as [H3|(o' & Hin & H3)]; [left; exact H3|right; exists o'; auto].
Qed.

Lemma fold_maxStep (l : list RawOrderRow) (m : Z) :
  exists r, fold_left Timeline.maxStep l (Some m) = Some r /\ m <= r /\
    (forall o, In o l -> purchase_date o <= r) /\
    (r = m \/ exists o, In o l /\ purchase_date o = r).
Proof.
  revert m; induction l as [|o l IH]; intros m; simpl.
  - exists m. split; [reflexivity|]. split; [lia|]. split; [intros _ []|left; reflexivity].
  - destruct (purchase_date o >? m) eqn:E.
    + destruct (IH (purchase_date o)) as (r & H0 & H1 & H2 & H3).
      rewrite Z.gtb_lt in E. exists r. split; [exact H0|]. split; [lia|]. split.
      * intros o' [<-|Hin]; [exact H1|exact (H2 _ Hin)].
      * right. destruct H3 as [H3|(o' & Hin & H3)]; [exists o; auto|exists o'; auto].
    + destruct (IH m) as (r & H0 & H1 & H2 & H3).
      rewrite Z.gtb_ltb, Z.ltb_ge in E. exists r. split; [exact H0|]. split; [exact H1|]. split.
      * intros o' [<-|Hin]; [lia|exact (H2 _ Hin)].
      * destruct H3 as [H3|(o' & Hin & H3)]; [left; exact H3|right; exists o'; auto].
Qed.

(** On a non-empty subset [getRangeInfo] returns the earliest and the
    latest purchase dates, both attained, every purchase date lies between
    them, and [daysSpan] is their distance plus one, hence at least 1. *)
Theorem X_getRangeInfo_bounds (subset : list RawOrderRow) (Hne : subset <> []) :
  exists mn mx,
    Timeline.getRangeInfo subset =
      {| Timeline.rangeStart := Some mn; Timeline.rangeEnd := Some mx;
         Timeline.daysSpan := mx - mn + 1 |} /\
    1 <= mx - mn + 1 /\
    (forall o, In o subset -> mn <= purchase_date o <= mx) /\
    (exists o, In o subset /\ purchase_date o = mn) /\
    (exists o, In o subset /\ purchase_date o = mx).
Proof.
  destruct subset as [|o l]; [congruence|]. unfold Timeline.getRangeInfo. simpl.
  destruct (fold_minStep l (purchase_date o)) as (mn & Hmn & Hmn1 & Hmn2 & Hmn3).
  destruct (fold_maxStep l (purchase_date o)) as (mx & Hmx & Hmx1 & Hmx2 & Hmx3).
  rewrite Hmn, Hmx. exists mn, mx. split; [reflexivity|]. split; [lia|]. split; [|split].
  - intros o' [<-|Hin]; [lia|]. split; [exact (Hmn2 _ Hin)|exact (Hmx2 _ Hin)].
  - destruct Hmn3 as [->|(o' & Hin & H)]; [exists o; auto|exists o'; auto].
  - destruct Hmx3 as [->|(o' & Hin & H)]; [exists o; auto|exists o'; auto].
Qed.

Lemma X_getRangeInfo_bounds_witness :
  Samples.orders3 <> [] /\
  Timeline.daysSpan (Timeline.getRangeInfo Samples.orders3) = 21.
Proof.
  split; [discriminate|].
  destruct (X_getRangeInfo_bounds Samples.orders3 ltac:(discriminate))
    as (mn & mx & H & _).
  rewrite H. simpl. vm_compute in H. injection H as <- <-. reflexivity.
Defined.

Lemma cntIn_split (a b c : Z) (ls : list Z) :
  a <= b <= c -> (cntIn a c ls = cntIn a b ls + cntIn b c ls)%nat.
Proof.
  intros H. unfold cntIn. induction ls as [|l ls IH]; simpl; [reflexivity|].
  destruct (Z.leb_spec a l), (Z.ltb_spec l c), (Z.leb_spec b l), (Z.ltb_spec l b);
    simpl; rewrite ?IH; lia.
Qed.

Lemma cntIn_le (a b : Z) (ls : list Z) : (cntIn a b ls <= length ls)%nat.
Proof. unfold cntIn. apply filter_length_le. Qed.

Lemma histLoop_length (ls : list Z) (total : N) (fuel : nat) (i : Z) (cum : N) :
  length (Lag.histLoop ls total fuel i cum) = fuel.
Proof.
  revert i cum; induction fuel as [|f IH]; intros i cum; simpl; [reflexivity|].
  rewrite IH. reflexivity.
Qed.

Lemma histLoop_nth (ls : list Z) (total : N) (fuel : nat) (i : Z) (cum : N) (k : nat)
      (b : Lag.LagBucket) :
  nth_error (Lag.histLoop ls total fuel i cum) k = Some b ->
  Lag.days b = i + 2 * Z.of_nat k /\
  Lag.count b = N.of_nat (cntIn (i + 2 * Z.of_nat k) (i + 2 * Z.of_nat k + 2) ls) /\
  Lag.cumulativePct b =
    (QN (cum + N.of_nat (cntIn i (i + 2 * Z.of_nat k + 2) ls)) / QN total)%Q.
Proof.
  revert i cum k; induction fuel as [|f IH]; intros i cum k Hk; simpl in Hk.
  - destruct k; discriminate Hk.
  - destruct k as [|k].
    + injection Hk as <-. simpl. unfold cntIn. rewrite !Z.add_0_r.
      split; [reflexivity|]. split; reflexivity.
    + destruct (IH _ _ _ Hk) as (H1 & H2 & H3). rewrite Nat2Z.inj_succ.
      split; [lia|]. split.
      * rewrite H2. f_equal. f_equal; lia.
      * rewrite H3. do 2 f_equal. unfold cntIn at 1.
        rewrite (cntIn_split i (i + 2) (i + 2 * Z.succ (Z.of_nat k) + 2)) by lia.
        replace (i + 2 + 2 * Z.of_nat k + 2) with (i + 2 * Z.succ (Z.of_nat k) + 2) by lia.
        rewrite Nat2N.inj_add. unfold cntIn. lia.
Qed.

Lemma distribution_eq (ls : list Z) (p90 : Z) (Hne : ls <> []) (Hp90 : 6 <= p90) :
  let finalLimit := Z.min (Z.max (nth (Lag.pctIndex (Z.of_nat (length ls)) 95 100) ls 0)
                                 (p90 + 14)) 120 in
  20 <= finalLimit <= 120 /\
  Lag.distribution ls p90 =
    Lag.histLoop ls (N.of_nat (length ls)) (S (Z.to_nat (finalLimit / 2))) 0 0%N.
Proof.
  cbv zeta. destruct ls as [|x xs]; [congruence|].
  split; [lia|]. unfold Lag.distribution. cbv zeta.
  cbv beta iota.
  lazymatch goal with |- context [if ?c then _ else _] => destruct c eqn:E end;
    [apply Z.ltb_lt in E; lia|reflexivity].
Qed.

Lemma QN_frac_bounds (a b n : N) :
  (0 < n)%N -> (a <= b)%N -> (b <= n)%N ->
  (0 <= QN a / QN n)%Q /\ (QN a / QN n <= QN b / QN n)%Q /\ (QN b / QN n <= 1)%Q.
Proof.
  intros Hn Hab Hbn. unfold QN.
  assert (Hn' : (0 < inject_Z (Z.of_N n))%Q) by (unfold Qlt; simpl; lia).
  assert (Ha : (0 <= inject_Z (Z.of_N a))%Q) by (unfold Qle; simpl; lia).
  assert (Hab' : (inject_Z (Z.of_N a) <= inject_Z (Z.of_N b))%Q) by (rewrite <- Zle_Qle; lia).
  assert (Hbn' : (inject_Z (Z.of_N b) <= inject_Z (Z.of_N n))%Q) by (rewrite <- Zle_Qle; lia).
  split; [|split].
  - apply Qle_shift_div_l; [exact Hn'|]. rewrite Qmult_0_l. exact Ha.
  - apply Qle_shift_div_l; [exact Hn'|]. unfold Qdiv.
    rewrite <- Qmult_assoc, (Qmult_comm (/ _)), Qmult_inv_r, Qmult_1_r;
      [exact Hab'|intros Hz; rewrite Hz in Hn'; discriminate Hn'].
  - apply Qle_shift_div_r; [exact Hn'|]. rewrite Qmult_1_l. exact Hbn'.
Qed.

(** On non-empty lag samples (and P90 >= 6) the histogram has
    [finalLimit/2 + 1] buckets, between 11 and 61; bucket [k] starts at day
    [2k], counts the samples in [[2k, 2k+2)], and its cumulative fraction is
    the share of samples in [[0, 2k+2)], a value in [[0, 1]] that never
    decreases from one bucket to the next. *)
Theorem X_histogram_buckets (ls : list Z) (p90 : Z) (Hne : ls <> []) (Hp90 : 6 <= p90) :
  let finalLimit := Z.min (Z.max (nth (Lag.pctIndex (Z.of_nat (length ls)) 95 100) ls 0)
                                 (p90 + 14)) 120 in
  let dist := Lag.distribution ls p90 in
  Z.of_nat (length dist) = finalLimit / 2 + 1 /\
  (11 <= length dist <= 61)%nat /\
  (forall k b, nth_error dist k = Some b ->
     Lag.days b = 2 * Z.of_nat k /\
     Lag.count b = N.of_nat (length (filter (fun l => (2 * Z.of_nat k <=? l) &&
                                                      (l <? 2 * Z.of_nat k + 2)) ls)) /\
     Lag.cumulativePct b =
       (QN (N.of_nat (length (filter (fun l => (0 <=? l) && (l <? 2 * Z.of_nat k + 2)) ls)))
        / QN (N.of_nat (length ls)))%Q /\
     (0 <= Lag.cumulativePct b <= 1)%Q) /\
  (forall k b b', nth_error dist k = Some b -> nth_error dist (S k) = Some b' ->
     (Lag.cumulativePct b <= Lag.cumulativePct b')%Q).
Proof.
  destruct (distribution_eq ls p90 Hne Hp90) as [Hlim Heq]. cbv zeta in *.
  rewrite Heq. clear Heq.
  set (fl := Z.min _ 120) in *.
  assert (Hn : (0 < N.of_nat (length ls))%N)
    by (destruct ls; [congruence|simpl; lia]).
  split; [rewrite histLoop_length, Nat2Z.inj_succ, Z2Nat.id; [lia|apply Z.div_pos; lia]|].
  split.
  { rewrite histLoop_length.
    assert (10 <= fl / 2 <= 60) by (split; [apply Z.div_le_lower_bound|apply Z.div_le_upper_bound]; lia).
    lia. }
  split.
  - intros k b Hk. destruct (histLoop_nth _ _ _ _ _ _ _ Hk) as (H1 & H2 & H3).
    rewrite !Z.add_0_l in *. split; [exact H1|]. split; [exact H2|].
    rewrite N.add_0_l in H3. split; [exact H3|]. rewrite H3.
    destruct (QN_frac_bounds (N.of_nat (cntIn 0 (2 * Z.of_nat k + 2) ls))
                (N.of_nat (cntIn 0 (2 * Z.of_nat k + 2) ls)) (N.of_nat (length ls)))
      as (B1 & _ & B3); [exact Hn|lia|pose proof (cntIn_le 0 (2 * Z.of_nat k + 2) ls); lia|].
    split; assumption.
  - intros k b b' Hk Hk'.
    destruct (histLoop_nth _ _ _ _ _ _ _ Hk) as (_ & _ & H3).
    destruct (histLoop_nth _ _ _ _ _ _ _ Hk') as (_ & _ & H3').
    rewrite H3, H3', !N.add_0_l.
    rewrite (cntIn_split 0 (0 + 2 * Z.of_nat k + 2) (0 + 2 * Z.of_nat (S k) + 2)) by lia.
    pose proof (cntIn_le 0 (0 + 2 * Z.of_nat (S k) + 2) ls) as Hle.
    rewrite (cntIn_split 0 (0 + 2 * Z.of_nat k + 2) (0 + 2 * Z.of_nat (S k) + 2)) in Hle by lia.
    apply (QN_frac_bounds _ _ _ Hn); lia.
Qed.

Lemma X_histogram_buckets_witness :
  [2; 6; 6; 20] <> [] /\ 6 <= 30 /\
  length (Lag.distribution [2; 6; 6; 20] 30) = 23%nat.
Proof.
  split; [discriminate|]. split; [lia|].
  destruct (X_histogram_buckets [2; 6; 6; 20] 30 ltac:(discriminate) ltac:(lia)) as (H & _).
  apply Nat2Z.inj. rewrite H. vm_compute. reflexivity.
Defined.

Lemma combine_app {A B} (a a' : list A) (b b' : list B) :
  length a = length b -> combine (a ++ a') (b ++ b') = combine a b ++ combine a' b'.
Proof.
  revert b; induction a as [|x a IH]; intros b Hl; destruct b as [|y b]; try discriminate Hl;
    simpl; [reflexivity|]. rewrite IH by (simpl in Hl; lia). reflexivity.
Qed.

Lemma find_rev_combine {B} (p : nat * B -> bool) (l : list B) :
  match find p (rev (combine (seq 0 (length l)) l)) with
  | Some (k, b) => nth_error l k = Some b /\ p (k, b) = true /\
                   forall j b', (k < j)%nat -> nth_error l j = Some b' -> p (j, b') = false
  | None => forall j b', nth_error l j = Some b' -> p (j, b') = false
  end.
Proof.
  induction l as [|x l IH] using rev_ind; simpl.
  - intros j b' H. destruct j; discriminate H.
  - replace (length (l ++ [x])) with (S (length l)) by (rewrite length_app; simpl; lia).
    rewrite seq_S, combine_app by (rewrite length_seq; reflexivity).
    simpl. rewrite rev_app_distr. simpl.
    destruct (p (length l, x)) eqn:Ex.
    + split; [rewrite nth_error_app2, Nat.sub_diag by lia; reflexivity|]. split; [exact Ex|].
      intros j b' Hj Hn. exfalso.
      assert (Hlt : (j < length (l ++ [x]))%nat) by (apply nth_error_Some; congruence).
      rewrite length_app in Hlt. simpl in Hlt. lia.
    + destruct (find p (rev (combine (seq 0 (length l)) l))) as [[k b]|].
      * destruct IH as (H1 & H2 & H3).
        assert (Hk : (k < length l)%nat) by (apply nth_error_Some; congruence).
        split; [rewrite nth_error_app1 by exact Hk; exact H1|]. split; [exact H2|].
        intros j b' Hj Hn.
        destruct (Nat.lt_ge_cases j (length l)) as [Hjl|Hjl].
        -- rewrite nth_error_app1 in Hn by exact Hjl. exact (H3 _ _ Hj Hn).
        -- rewrite nth_error_app2 in Hn by exact Hjl.
           destruct (j - length l)%nat as [|m] eqn:Em; simpl in Hn.
           ++ injection Hn as <-. replace j with (length l) by lia. exact Ex.
           ++ destruct m; discriminate Hn.
      * intros j b' Hn.
        destruct (Nat.lt_ge_cases j (length l)) as [Hjl|Hjl].
        -- rewrite nth_error_app1 in Hn by exact Hjl. exact (IH _ _ Hn).
        -- rewrite nth_error_app2 in Hn by exact Hjl.
           destruct (j - length l)%nat as [|m] eqn:Em; simpl in Hn.
           ++ injection Hn as <-. replace j with (length l) by lia. exact Ex.
           ++ destruct m; discriminate Hn.
Qed.

(** [getCumulativePct] on buckets laid out every 2 days from day 0. *)
Lemma getCumulativePct_grid (dist : list Lag.LagBucket) (day : Z)
      (Hne : dist <> [])
      (Hdays : forall k b, nth_error dist k = Some b -> Lag.days b = 2 * Z.of_nat k) :
  let cp k := Lag.cumulativePct (nth k dist zeroBucket) in
  let k := Z.to_nat (day / 2) in
  (day < 0 -> Lag.getCumulativePct dist day = 0%Q) /\
  (0 <= day -> (S k < length dist)%nat ->
     (Lag.getCumulativePct dist day ==
        cp k + inject_Z (day mod 2) / inject_Z 2 * (cp (S k) - cp k))%Q) /\
  (0 <= day -> (length dist <= S k)%nat ->
     Lag.getCumulativePct dist day = cp (pred (length dist))).
Proof.
  cbv zeta. unfold Lag.getCumulativePct.
  destruct dist as [|b0 rest] eqn:Ed; [congruence|]. rewrite <- Ed in Hdays, Hne |- *.
  pose proof (find_rev_combine (fun ib => Lag.days (snd ib) <=? day) dist) as HF.
  destruct (find _ _) as [[k b]|] eqn:Ef.
  - destruct HF as (H1 & H2 & H3). simpl in H2. apply Z.leb_le in H2.
    rewrite (Hdays _ _ H1) in H2.
    assert (Hk : (k < length dist)%nat) by (apply nth_error_Some; congruence).
    assert (Hnth : nth k dist zeroBucket = b) by (apply nth_error_nth; exact H1).
    split; [intros Hneg; lia|].
    destruct (nth_error dist (S k)) as [b'|] eqn:En.
    + pose proof (H3 (S k) b' ltac:(lia) En) as H4. simpl in H4. apply Z.leb_gt in H4.
      rewrite (Hdays _ _ En) in H4.
      assert (Hdiv : Z.to_nat (day / 2) = k).
      { assert (day / 2 = Z.of_nat k) by (symmetry; apply Z.div_unique with (r := day - 2 * Z.of_nat k); lia).
        lia. }
      assert (Hnth' : nth (S k) dist zeroBucket = b') by (apply nth_error_nth; exact En).
      assert (HSk : (S k < length dist)%nat) by (apply nth_error_Some; congruence).
      split.
      * intros _ _. rewrite Hdiv, Hnth, Hnth', (Hdays _ _ H1), (Hdays _ _ En).
        replace (day mod 2) with (day - 2 * Z.of_nat k)
          by (rewrite Z.mod_eq by lia; rewrite <- Hdiv, Z2Nat.id by (apply Z.div_pos; lia); lia).
        replace (2 * Z.of_nat (S k) - 2 * Z.of_nat k) with 2 by lia. reflexivity.
      * intros _ Hle. lia.
    + assert (HSk : (length dist <= S k)%nat) by (apply nth_error_None; exact En).
      split.
      * intros Hd Hlt. exfalso.
        assert (Hdk : (k <= Z.to_nat (day / 2))%nat).
        { assert (2 * Z.of_nat k <= 2 * (day / 2) + day mod 2)
            by (rewrite <- Z.div_mod by lia; lia).
          pose proof (Z.mod_pos_bound day 2 ltac:(lia)).
          assert (Z.of_nat k <= day / 2) by lia. lia. }
        lia.
      * intros _ _. replace (pred (length dist)) with k by lia. rewrite Hnth. reflexivity.
  - split; [intros; reflexivity|].
    assert (H0 := HF 0%nat b0). rewrite Ed in H0. specialize (H0 eq_refl).
    simpl in H0. apply Z.leb_gt in H0.
    assert (Hb0 : Lag.days b0 = 0) by (apply (Hdays 0%nat); rewrite Ed; reflexivity).
    split; intros Hd; lia.
Qed.

Lemma hist_grid (ls : list Z) (p90 : Z) (Hne : ls <> []) (Hp90 : 6 <= p90) :
  Lag.distribution ls p90 <> [] /\
  (forall k b, nth_error (Lag.distribution ls p90) k = Some b ->
     Lag.days b = 2 * Z.of_nat k /\ (0 <= Lag.cumulativePct b <= 1)%Q).
Proof.
  destruct (distribution_eq ls p90 Hne Hp90) as [Hlim Heq]. cbv zeta in *.
  rewrite Heq. clear Heq.
  assert (Hn : (0 < N.of_nat (length ls))%N)
    by (destruct ls; [congruence|simpl; lia]).
  split; [simpl; discriminate|].
  intros k b Hk. destruct (histLoop_nth _ _ _ _ _ _ _ Hk) as (H1 & _ & H3).
  split; [lia|]. rewrite H3, N.add_0_l.
  destruct (QN_frac_bounds (N.of_nat (cntIn 0 (0 + 2 * Z.of_nat k + 2) ls))
              (N.of_nat (cntIn 0 (0 + 2 * Z.of_nat k + 2) ls)) (N.of_nat (length ls)))
    as (B1 & _ & B3); [exact Hn|lia|pose proof (cntIn_le 0 (0 + 2 * Z.of_nat k + 2) ls); lia|].
  split; assumption.
Qed.

Lemma interp_bounds (c c' : Q) (m : Z) :
  (0 <= c <= 1)%Q -> (0 <= c' <= 1)%Q -> m = 0 \/ m = 1 ->
  (0 <= c + inject_Z m / inject_Z 2 * (c' - c) <= 1)%Q.
Proof.
  intros Hc Hc' [-> | ->].
  - change (inject_Z 0 / inject_Z 2)%Q with (0 # 2)%Q. lra.
  - change (inject_Z 1 / inject_Z 2)%Q with (1 # 2)%Q. lra.
Qed.

Lemma nth_in_range (dist : list Lag.LagBucket) (k : nat)
      (P : Lag.LagBucket -> Prop) :
  (forall k b, nth_error dist k = Some b -> P b) -> (k < length dist)%nat ->
  P (nth k dist zeroBucket).
Proof.
  intros H Hk. apply (H k). apply nth_error_nth'. exact Hk.
Qed.

Lemma getCumulativePct_range (ls : list Z) (p90 day : Z) (Hp90 : 6 <= p90) :
  (0 <= Lag.getCumulativePct (Lag.distribution ls p90) day <= 1)%Q.
Proof.
  destruct ls as [|x xs].
  - unfold Lag.distribution, Lag.getCumulativePct. split; discriminate.
  - destruct (hist_grid (x :: xs) p90 ltac:(discriminate) Hp90) as [Hne Hg].
    set (dist := Lag.distribution (x :: xs) p90) in *.
    assert (Hd : forall k b, nth_error dist k = Some b -> Lag.days b = 2 * Z.of_nat k)
      by (intros k b H; exact (proj1 (Hg k b H))).
    assert (Hc : forall k b, nth_error dist k = Some b -> (0 <= Lag.cumulativePct b <= 1)%Q)
      by (intros k b H; exact (proj2 (Hg k b H))).
    destruct (getCumulativePct_grid dist day Hne Hd) as (G1 & G2 & G3). cbv zeta in *.
    assert (Hlen : (0 < length dist)%nat) by (destruct dist; [congruence|simpl; lia]).
    destruct (Z.lt_ge_cases day 0) as [Hneg|Hpos].
    + rewrite (G1 Hneg). split; discriminate.
    + destruct (Nat.lt_ge_cases (S (Z.to_nat (day / 2))) (length dist)) as [Hin|Hout].
      * rewrite (G2 Hpos Hin). apply interp_bounds.
        -- apply (nth_in_range dist _ (fun b => (0 <= Lag.cumulativePct b <= 1)%Q) Hc). lia.
        -- apply (nth_in_range dist _ (fun b => (0 <= Lag.cumulativePct b <= 1)%Q) Hc). exact Hin.
        -- pose proof (Z.mod_pos_bound day 2 ltac:(lia)). lia.
      * rewrite (G3 Hpos Hout).
        apply (nth_in_range dist _ (fun b => (0 <= Lag.cumulativePct b <= 1)%Q) Hc). lia.
Qed.

(** On the histogram of non-empty samples, [getCumulativePct] is 0 before
    day 0, interpolates linearly between the two buckets around [day] inside
    the histogram, is the last bucket's fraction beyond it, and always lies
    in [[0, 1]]. *)
Theorem X_getCumulativePct_on_histogram (ls : list Z) (p90 day : Z)
    (Hne : ls <> []) (Hp90 : 6 <= p90) :
  let dist := Lag.distribution ls p90 in
  let cp k := Lag.cumulativePct (nth k dist zeroBucket) in
  let k := Z.to_nat (day / 2) in
  (day < 0 -> Lag.getCumulativePct dist day = 0%Q) /\
  (0 <= day -> (S k < length dist)%nat ->
     (Lag.getCumulativePct dist day ==
        cp k + inject_Z (day mod 2) / inject_Z 2 * (cp (S k) - cp k))%Q) /\
  (0 <= day -> (length dist <= S k)%nat ->
     Lag.getCumulativePct dist day = cp (pred (length dist))) /\
  (0 <= Lag.getCumulativePct dist day <= 1)%Q.
Proof.
  destruct (hist_grid ls p90 Hne Hp90) as [Hd Hg].
  destruct (getCumulativePct_grid (Lag.distribution ls p90) day Hd
              (fun k b H => proj1 (Hg k b H))) as (G1 & G2 & G3).
  cbv zeta in *. split; [exact G1|]. split; [exact G2|]. split; [exact G3|].
  apply getCumulativePct_range, Hp90.
Qed.

Lemma X_getCumulativePct_on_histogram_witness :
  [2; 6; 6; 20] <> [] /\ 6 <= 30 /\
  Qeq (Lag.getCumulativePct (Lag.distribution [2; 6; 6; 20] 30) 5) (1 # 2).
Proof.
  split; [discriminate|]. split; [lia|].
  destruct (X_getCumulativePct_on_histogram [2; 6; 6; 20] 30 5 ltac:(discriminate) ltac:(lia))
    as (_ & H & _).
  eapply Qeq_trans; [apply H; [lia|vm_compute; lia]|]. vm_compute. reflexivity.
Defined.

Lemma analyzeMaturity_unfold (data : AppData) (res : Maturity.MaturityAnalysisResult) :
  Maturity.analyzeMaturity data = Some res ->
  exists orders t0Time,
    return_order data = Some orders /\ t0Date data = Some t0Time /\ orders <> [] /\
    let span := Maturity.spanOf (comparisonSpan data) in
    let mk := Lag.markers (Lag.lags orders t0Time) in
    let dist := Lag.distribution (Lag.lags orders t0Time) (Lag.p90_value mk) in
    let cohort := filter (fun o => (t0Time <=? purchase_date o) &&
                                   (purchase_date o <? t0Time + span)) orders in
    let rows := map (Maturity.projectDay mk dist (latestPurchase orders)) (Maturity.dailyMap cohort) in
    let fin := fold_left Maturity.addToBucket (filter (Maturity.phaseb Maturity.finalized) rows) Maturity.emptyBucket in
    let mat := fold_left Maturity.addToBucket (filter (Maturity.phaseb Maturity.mature) rows) Maturity.emptyBucket in
    let ramp := fold_left Maturity.addToBucket (filter (Maturity.phaseb Maturity.rampup) rows) Maturity.emptyBucket in
    let sm := Maturity.summarize fin mat ramp in
    Maturity.t0 res = t0Time /\ Maturity.s res = latestPurchase orders /\
    Maturity.dailyProjections res = sort_by (fun a b => Maturity.age b - Maturity.age a) rows /\
    Maturity.buckets (Maturity.projection res) = [fin; mat; ramp] /\
    Maturity.confidenceScore res = Maturity.sm_confidence sm /\
    Maturity.maturityStatus res = Maturity.sm_status sm /\
    Maturity.isEvaluable res = Maturity.sm_evaluable sm /\
    Maturity.projectedRateP (Maturity.projection res) = Maturity.sm_projection_rate sm /\
    Maturity.metricsPostNominal res = Maturity.calcStats cohort.
Proof.
  unfold Maturity.analyzeMaturity. intros H.
  destruct (return_order data) as [[|o os]|] eqn:Ho; try discriminate H.
  destruct (t0Date data) as [t0Time|] eqn:Ht; try discriminate H.
  exists (o :: os), t0Time. split; [reflexivity|]. split; [reflexivity|].
  split; [discriminate|].
  cbv zeta in H |- *. rewrite MaturityFacts.accumulate_split in H.
  injection H as <-. simpl. repeat split; reflexivity.
Qed.

Lemma sumN_filter_snoc (f : RawOrderRow -> N) (q : RawOrderRow -> bool) (p : list RawOrderRow) (o : RawOrderRow) :
  sumN (map f (filter q (p ++ [o]))) = (sumN (map f (filter q p)) + if q o then f o else 0)%N.
Proof.
  rewrite filter_app, map_app, ContrastFacts.sumN_app. simpl.
  destruct (q o); simpl; unfold sumN; simpl; lia.
Qed.

Lemma sumN_filter_none (f : RawOrderRow -> N) (q : RawOrderRow -> bool) (p : list RawOrderRow) :
  (forall o, In o p -> q o = false) -> sumN (map f (filter q p)) = 0%N.
Proof.
  induction p as [|x p IH]; intros H; simpl; [reflexivity|].
  rewrite (H x (or_introl eq_refl)). apply IH. intros o Ho. apply H. right. exact Ho.
Qed.

Lemma mapAdd_inv (m : list (Z * Maturity.DayStats)) (p : list RawOrderRow) (o : RawOrderRow) :
  dayInv m p -> dayInv (Maturity.mapAdd m o) (p ++ [o]).
Proof.
  intros (Hnd & Hk & He).
  (* shape of [mapAdd] on a map with unique keys *)
  assert (Hshape : forall m,
    NoDup (keys m) ->
    NoDup (keys (Maturity.mapAdd m o)) /\
    (forall d, In d (keys (Maturity.mapAdd m o)) <-> In d (keys m) \/ d = purchase_date o) /\
    (forall d st, In (d, st) (Maturity.mapAdd m o) ->
       (d <> purchase_date o /\ In (d, st) m) \/
       (d = purchase_date o /\
        ((exists st0, In (d, st0) m /\
            st = {| Maturity.vol := (Maturity.vol st0 + units_sold o)%N;
                    Maturity.ret := (Maturity.ret st0 + getReturnCount o)%N;
                    Maturity.pTime := Maturity.pTime st0 |}) \/
         (~ In d (keys m) /\
            st = {| Maturity.vol := units_sold o; Maturity.ret := getReturnCount o;
                    Maturity.pTime := purchase_date o |}))))).
  { clear. induction m as [|[d0 st0] m IH]; intros Hnd; simpl.
    - split; [constructor; [intros []|constructor]|]. split.
      + intros d. simpl. split; [intros [<-|[]]; right; reflexivity|intros [[]|<-]; left; reflexivity].
      + intros d st [H|[]]. injection H as <- <-. right. split; [reflexivity|]. right.
        split; [intros []|reflexivity].
    - inversion Hnd as [|? ? Hnin Hnd']; subst.
      destruct (d0 =? purchase_date o) eqn:E.
      + apply Z.eqb_eq in E. subst d0. simpl. split; [constructor; assumption|]. split.
        * intros d. simpl. split; [intros [<-|H]; auto|intros [[<-|H]|<-]; auto].
        * intros d st [H|H].
          -- injection H as <- <-. right. split; [reflexivity|]. left.
             eexists. split; [left; reflexivity|reflexivity].
          -- left. split; [|right; exact H].
             intros ->. apply Hnin. apply in_map_iff. exists (purchase_date o, st). auto.
      + apply Z.eqb_neq in E. destruct (IH Hnd') as (H1 & H2 & H3). simpl.
        split; [constructor; [rewrite H2; intros [H|H]; [exact (Hnin H)|congruence]|exact H1]|].
        split.
        * intros d. simpl. rewrite H2. tauto.
        * intros d st [H|H].
          -- injection H as <- <-. left. split; [exact E|left; reflexivity].
          -- destruct (H3 d st H) as [(Hd & Hin)|(Hd & [(st1 & Hin & Hst)|(Hnk & Hst)])].
             ++ left. split; [exact Hd|right; exact Hin].
             ++ right. split; [exact Hd|]. left. exists st1. split; [right; exact Hin|exact Hst].
             ++ right. split; [exact Hd|]. right. split; [|exact Hst].
                intros [H'|H']; [congruence|exact (Hnk H')]. }
  destruct (Hshape m Hnd) as (S1 & S2 & S3). clear Hshape.
  split; [exact S1|]. split.
  - intros d. rewrite S2, Hk. split.
    + intros [(o' & Hin & <-)| ->]; [exists o'; split; [apply in_or_app; left|]; auto|].
      exists o. split; [apply in_or_app; right; left; reflexivity|reflexivity].
    + intros (o' & Hin & <-). apply in_app_or in Hin. destruct Hin as [Hin|[<-|[]]].
      * left. exists o'. auto.
      * right. reflexivity.
  - intros d st Hin. rewrite !sumN_filter_snoc. change (dayOf d o) with (purchase_date o =? d).
    destruct (S3 d st Hin) as [(Hd & Hin')|(Hd & [(st0 & Hin' & ->)|(Hnk & ->)])].
    + destruct (He d st Hin') as (E1 & E2 & E3).
      replace (purchase_date o =? d) with false by (symmetry; apply Z.eqb_neq; congruence).
      split; [exact E1|]. split; lia.
    + destruct (He d st0 Hin') as (E1 & E2 & E3). subst d. rewrite Z.eqb_refl. simpl.
      split; [exact E1|]. split; lia.
    + subst d. rewrite Z.eqb_refl. simpl.
      assert (Hnone : forall o', In o' p -> dayOf (purchase_date o) o' = false).
      { intros o' Hin'. unfold dayOf. apply Z.eqb_neq. intros Heq. apply Hnk.
        apply Hk. exists o'. auto. }
      rewrite !(sumN_filter_none _ _ p Hnone).
      split; [reflexivity|]. split; reflexivity.
Qed.

Lemma dailyMap_inv (l : list RawOrderRow) : dayInv (Maturity.dailyMap l) l.
Proof.
  unfold Maturity.dailyMap.
  assert (H : forall l p m, dayInv m p -> dayInv (fold_left Maturity.mapAdd l m) (p ++ l)).
  { clear. induction l as [|o l IH]; intros p m Hm; simpl; [rewrite app_nil_r; exact Hm|].
    replace (p ++ o :: l) with ((p ++ [o]) ++ l) by (rewrite <- app_assoc; reflexivity).
    apply IH, mapAdd_inv, Hm. }
  apply (H l [] []). split; [constructor|]. split.
  - intros d. simpl. split; [intros []|intros (o & [] & _)].
  - intros d st [].
Qed.

Lemma projectDay_fields (mk : Lag.Markers) (dist : list Lag.LagBucket) (sTime : Z)
      (d : Z) (st : Maturity.DayStats) :
  let r := Maturity.projectDay mk dist sTime (d, st) in
  Maturity.date r = d /\ Maturity.age r = sTime - Maturity.pTime st /\
  Maturity.sales r = Maturity.vol st /\ Maturity.realized r = Maturity.ret st.
Proof.
  unfold Maturity.projectDay. cbv zeta.
  destruct (sTime - Maturity.pTime st >? Lag.p90_value mk);
  [|destruct (sTime - Maturity.pTime st >=? Lag.d_value mk)];
  repeat split; reflexivity.
Qed.

Lemma sorted_strict {A} (f : A -> Z) (l : list A) :
  Sorted (fun a b => f b <= f a) l -> NoDup (map f l) -> Sorted (fun a b => f b < f a) l.
Proof.
  induction 1 as [|a l Hs IH Hhd]; intros Hnd; [constructor|].
  inversion Hnd as [|? ? Hnin Hnd']; subst. constructor; [exact (IH Hnd')|].
  destruct Hhd as [|b l' Hab]; constructor.
  assert (f b <> f a) by (intros E; apply Hnin; left; exact E). lia.
Qed.

Lemma NoDup_map_shift (c : Z) (l : list Z) : NoDup l -> NoDup (map (fun d => c - d) l).
Proof.
  induction 1 as [|x l Hnin Hnd IH]; simpl; constructor; [|exact IH].
  intros Hin. apply in_map_iff in Hin. destruct Hin as (y & Hy & Hin).
  assert (y = x) by lia. subst. contradiction.
Qed.

(** The daily projection rows have one row per purchase day of the cohort
    [[T0, T0 + span)] and no other: dates are distinct, a date appears iff a
    cohort order was bought that day, each row's age is [s - date >= 0], its
    sales and realized returns are the sums over that day's cohort orders,
    and the rows are sorted by strictly decreasing age. *)
Theorem X_daily_rows_per_purchase_day (data : AppData) (orders : list RawOrderRow)
    (t0Time : Z) (res : Maturity.MaturityAnalysisResult)
    (Ho : return_order data = Some orders) (Ht : t0Date data = Some t0Time)
    (Hres : Maturity.analyzeMaturity data = Some res) :
  let span := Maturity.spanOf (comparisonSpan data) in
  let cohort := filter (fun o => (t0Time <=? purchase_date o) &&
                                 (purchase_date o <? t0Time + span)) orders in
  NoDup (map Maturity.date (Maturity.dailyProjections res)) /\
  (forall d, In d (map Maturity.date (Maturity.dailyProjections res)) <->
             exists o, In o cohort /\ purchase_date o = d) /\
  (forall row, In row (Maturity.dailyProjections res) ->
     Maturity.age row = Maturity.s res - Maturity.date row /\
     0 <= Maturity.age row /\
     Maturity.sales row =
       sumN (map units_sold (filter (fun o => purchase_date o =? Maturity.date row) cohort)) /\
     Maturity.realized row =
       sumN (map getReturnCount (filter (fun o => purchase_date o =? Maturity.date row) cohort))) /\
  Sorted (fun a b => Maturity.age b < Maturity.age a) (Maturity.dailyProjections res).
Proof.
  destruct (analyzeMaturity_unfold _ _ Hres)
    as (orders' & t0' & Ho' & Ht' & _ & _ & Hs & Hdp & _).
  rewrite Ho in Ho'. injection Ho' as <-. rewrite Ht in Ht'. injection Ht' as <-.
  cbv zeta in *. rewrite Hs.
  set (cohort := filter _ orders) in *.
  set (mk := Lag.markers _) in *.
  set (dist := Lag.distribution _ _) in *.
  set (rows := map (Maturity.projectDay mk dist (latestPurchase orders)) (Maturity.dailyMap cohort)) in *.
  assert (Hperm : Permutation (Maturity.dailyProjections res) rows)
    by (rewrite Hdp; apply sort_by_perm).
  destruct (dailyMap_inv cohort) as (D1 & D2 & D3).
  assert (Hdates : map Maturity.date rows = keys (Maturity.dailyMap cohort)).
  { unfold rows, keys. rewrite map_map. apply map_ext. intros [d st].
    exact (proj1 (projectDay_fields mk dist (latestPurchase orders) d st)). }
  assert (Hrow : forall row, In row rows ->
     Maturity.age row = latestPurchase orders - Maturity.date row /\
     0 <= Maturity.age row /\
     Maturity.sales row = sumN (map units_sold (filter (dayOf (Maturity.date row)) cohort)) /\
     Maturity.realized row = sumN (map getReturnCount (filter (dayOf (Maturity.date row)) cohort))).
  { intros row Hin. unfold rows in Hin. apply in_map_iff in Hin.
    destruct Hin as ([d st] & <- & Hin).
    destruct (projectDay_fields mk dist (latestPurchase orders) d st) as (F1 & F2 & F3 & F4).
    destruct (D3 d st Hin) as (E1 & E2 & E3).
    rewrite F1, F2, F3, F4, E1.
    assert (Hk : In d (keys (Maturity.dailyMap cohort)))
      by (apply in_map_iff; exists (d, st); auto).
    apply D2 in Hk. destruct Hk as (o & Hin' & <-).
    pose proof (proj1 (proj2 (latest_fold orders 0)) o
                  (proj1 (proj1 (filter_In _ _ _) Hin'))) as Hmax.
    cbv zeta in Hmax. fold (latestPurchase orders) in Hmax.
    split; [reflexivity|]. split; [lia|]. split; assumption. }
  assert (Hnd : NoDup (map Maturity.date (Maturity.dailyProjections res))).
  { apply (Permutation_NoDup (Permutation_map _ (Permutation_sym Hperm))).
    rewrite Hdates. exact D1. }
  split; [exact Hnd|]. split; [|split].
  - intros d. rewrite <- D2, <- Hdates.
    split; apply Permutation_in; [|symmetry]; apply Permutation_map, Hperm.
  - intros row Hin. apply Hrow. exact (Permutation_in _ Hperm Hin).
  - apply sorted_strict.
    + rewrite Hdp. apply sort_by_sorted; intros x y H; lia.
    + replace (map Maturity.age (Maturity.dailyProjections res))
        with (map (fun d => latestPurchase orders - d) (map Maturity.date (Maturity.dailyProjections res))).
      * apply NoDup_map_shift, Hnd.
      * rewrite map_map. apply map_ext_in. intros row Hin.
        symmetry. apply (Hrow row (Permutation_in _ Hperm Hin)).
Qed.

Lemma X_daily_rows_per_purchase_day_witness :
  exists res, Maturity.analyzeMaturity Samples.data2 = Some res /\
    NoDup (map Maturity.date (Maturity.dailyProjections res)).
Proof.
  eexists. split; [reflexivity|].
  match goal with
  | |- NoDup (map Maturity.date (Maturity.dailyProjections ?res)) =>
      exact (proj1 (X_daily_rows_per_purchase_day Samples.data2
                      (match return_order Samples.data2 with Some l => l | None => [] end)
                      100 res eq_refl eq_refl eq_refl))
  end.
Defined.

Lemma addToBucket_realized (l : list Maturity.DailyProjectionRow) (b : Maturity.ProjectionBucket) :
  Maturity.realizedReturns (fold_left Maturity.addToBucket l b) =
  (Maturity.realizedReturns b + sumN (map Maturity.realized l))%N.
Proof.
  revert b; induction l as [|x xs IH]; intros b; simpl; [unfold sumN; simpl; lia|].
  rewrite IH. simpl. unfold sumN; simpl. lia.
Qed.

Lemma sum_phases (f : Maturity.DailyProjectionRow -> N) (rows : list Maturity.DailyProjectionRow) :
  (sumN (map f (filter (Maturity.phaseb Maturity.finalized) rows)) +
   sumN (map f (filter (Maturity.phaseb Maturity.mature) rows)) +
   sumN (map f (filter (Maturity.phaseb Maturity.rampup) rows)))%N = sumN (map f rows).
Proof.
  induction rows as [|r rows IH]; [reflexivity|]. cbn [filter].
  assert (Hf : Maturity.phaseb Maturity.finalized r =
               match Maturity.phase r with Maturity.finalized => true | _ => false end)
    by reflexivity.
  assert (Hm : Maturity.phaseb Maturity.mature r =
               match Maturity.phase r with Maturity.mature => true | _ => false end)
    by reflexivity.
  assert (Hr : Maturity.phaseb Maturity.rampup r =
               match Maturity.phase r with Maturity.rampup => true | _ => false end)
    by reflexivity.
  rewrite Hf, Hm, Hr.
  destruct (Maturity.phase r); cbn [map]; unfold sumN in *; cbn [fold_right map] in *; lia.
Qed.

Lemma mapAdd_sums (m : list (Z * Maturity.DayStats)) (o : RawOrderRow) :
  sumN (map (fun e => Maturity.vol (snd e)) (Maturity.mapAdd m o)) =
    (sumN (map (fun e => Maturity.vol (snd e)) m) + units_sold o)%N /\
  sumN (map (fun e => Maturity.ret (snd e)) (Maturity.mapAdd m o)) =
    (sumN (map (fun e => Maturity.ret (snd e)) m) + getReturnCount o)%N.
Proof.
  induction m as [|[d st] m IH]; simpl; [unfold sumN; simpl; split; lia|].
  destruct (d =? purchase_date o); simpl; unfold sumN in *; simpl in *; [split; lia|].
  destruct IH as [H1 H2]. rewrite H1, H2. split; lia.
Qed.

Lemma dailyMap_sums (l : list RawOrderRow) :
  sumN (map (fun e => Maturity.vol (snd e)) (Maturity.dailyMap l)) = sumN (map units_sold l) /\
  sumN (map (fun e => Maturity.ret (snd e)) (Maturity.dailyMap l)) = sumN (map getReturnCount l).
Proof.
  unfold Maturity.dailyMap.
  assert (H : forall l m,
    sumN (map (fun e => Maturity.vol (snd e)) (fold_left Maturity.mapAdd l m)) =
      (sumN (map (fun e => Maturity.vol (snd e)) m) + sumN (map units_sold l))%N /\
    sumN (map (fun e => Maturity.ret (snd e)) (fold_left Maturity.mapAdd l m)) =
      (sumN (map (fun e => Maturity.ret (snd e)) m) + sumN (map getReturnCount l))%N).
  { clear. induction l as [|o l IH]; intros m; simpl; [unfold sumN; simpl; split; lia|].
    destruct (IH (Maturity.mapAdd m o)) as [H1 H2]. destruct (mapAdd_sums m o) as [M1 M2].
    rewrite H1, H2, M1, M2. unfold sumN; simpl. split; lia. }
  destruct (H l []) as [H1 H2]. rewrite H1, H2. split; reflexivity.
Qed.

Lemma fold_add_sumN {A} (f : A -> N) (l : list A) (a : N) :
  fold_left (fun acc cur => (acc + f cur)%N) l a = (a + sumN (map f l))%N.
Proof.
  revert a; induction l as [|x l IH]; intros a; simpl; [unfold sumN; simpl; lia|].
  rewrite IH. unfold sumN; simpl. lia.
Qed.

(** The three projection buckets (finalized, mature, ramp-up) partition the
    cohort: their volumes add up to the post-nominal volume and their
    realized returns to the post-nominal returns. *)
Theorem X_buckets_partition_cohort (data : AppData) (res : Maturity.MaturityAnalysisResult)
    (Hres : Maturity.analyzeMaturity data = Some res) :
  exists fin mat ramp,
    Maturity.buckets (Maturity.projection res) = [fin; mat; ramp] /\
    (Maturity.bvolume fin + Maturity.bvolume mat + Maturity.bvolume ramp)%N =
      Maturity.volume (Maturity.metricsPostNominal res) /\
    (Maturity.realizedReturns fin + Maturity.realizedReturns mat + Maturity.realizedReturns ramp)%N =
      Maturity.returns (Maturity.metricsPostNominal res).
Proof.
  destruct (analyzeMaturity_unfold _ _ Hres)
    as (orders & t0Time & _ & _ & _ & _ & _ & _ & Hb & _ & _ & _ & _ & Hpn).
  cbv zeta in *. rewrite Hpn.
  eexists; eexists; eexists. split; [exact Hb|].
  rewrite !MaturityFacts.addToBucket_volume, !addToBucket_realized.
  unfold Maturity.calcStats. simpl. rewrite !fold_add_sumN.
  set (cohort := filter _ orders).
  set (mk := Lag.markers _). set (dist := Lag.distribution _ _).
  set (rows := map (Maturity.projectDay mk dist (latestPurchase orders)) (Maturity.dailyMap cohort)).
  pose proof (sum_phases Maturity.sales rows) as P1.
  pose proof (sum_phases Maturity.realized rows) as P2.
  destruct (dailyMap_sums cohort) as [D1 D2].
  assert (R1 : sumN (map Maturity.sales rows) =
               sumN (map (fun e => Maturity.vol (snd e)) (Maturity.dailyMap cohort))).
  { unfold rows. rewrite map_map. f_equal. apply map_ext. intros [d st].
    exact (proj1 (proj2 (proj2 (projectDay_fields mk dist (latestPurchase orders) d st)))). }
  assert (R2 : sumN (map Maturity.realized rows) =
               sumN (map (fun e => Maturity.ret (snd e)) (Maturity.dailyMap cohort))).
  { unfold rows. rewrite map_map. f_equal. apply map_ext. intros [d st].
    exact (proj2 (proj2 (proj2 (projectDay_fields mk dist (latestPurchase orders) d st)))). }
  simpl. split; lia.
Qed.

Lemma X_buckets_partition_cohort_witness :
  exists res, Maturity.analyzeMaturity Samples.data2 = Some res /\
    exists fin mat ramp,
      Maturity.buckets (Maturity.projection res) = [fin; mat; ramp] /\
      (Maturity.bvolume fin + Maturity.bvolume mat + Maturity.bvolume ramp)%N =
        Maturity.volume (Maturity.metricsPostNominal res).
Proof.
  eexists. split; [reflexivity|].
  match goal with
  | |- exists _ _ _, Maturity.buckets (Maturity.projection ?res) = _ /\ _ =>
      destruct (X_buckets_partition_cohort Samples.data2 res eq_refl)
        as (fin & mat & ramp & H1 & H2 & _)
  end.
  exists fin, mat, ramp. split; assumption.
Defined.

(** The confidence score lies in [[0, 1]], and [isEvaluable] holds exactly
    when the maturity status is [projecting]. *)
Theorem X_confidence_and_flags (data : AppData) (res : Maturity.MaturityAnalysisResult)
    (Hres : Maturity.analyzeMaturity data = Some res) :
  (0 <= Maturity.confidenceScore res <= 1)%Q /\
  (Maturity.isEvaluable res = true <-> Maturity.maturityStatus res = Maturity.projecting).
Proof.
  destruct (analyzeMaturity_unfold _ _ Hres)
    as (orders & t0Time & _ & _ & _ & _ & _ & _ & _ & Hc & Hst & Hev & _).
  cbv zeta in *. rewrite Hc, Hst, Hev. clear.
  unfold Maturity.summarize. cbv zeta. simpl.
  split.
  - match goal with |- context [if (0 <? ?g)%N then (QN ?r / QN ?g)%Q else 0%Q] =>
      destruct (0 <? g)%N eqn:E; [apply N.ltb_lt in E|split; discriminate];
      destruct (QN_frac_bounds r r g E ltac:(lia) ltac:(lia)) as (B1 & _ & B2); split; assumption
    end.
  - destruct (Qle_bool _ _); split; intros H; try reflexivity; discriminate H.
Qed.

Lemma X_confidence_and_flags_witness :
  exists res, Maturity.analyzeMaturity Samples.data2 = Some res /\
    (0 <= Maturity.confidenceScore res <= 1)%Q.
Proof.
  eexists. split; [reflexivity|].
  match goal with
  | |- (0 <= Maturity.confidenceScore ?res <= 1)%Q =>
      exact (proj1 (X_confidence_and_flags Samples.data2 res eq_refl))
  end.
Defined.

Lemma rateOf_mono (a b : Q) (n : N) : (a <= b)%Q -> (rateOf a n <= rateOf b n)%Q.
Proof.
  intros H. unfold rateOf. destruct (n =? 0)%N eqn:E; [apply Qle_refl|].
  apply N.eqb_neq in E. unfold Qdiv. apply Qmult_le_compat_r; [exact H|].
  apply Qinv_le_0_compat. unfold QN, Qle. simpl. lia.
Qed.

(** Every daily row has its cumulative lag fraction in [[0, 1]], a
    non-negative forecast addition, and a current rate no larger than its
    projected rate. *)
Theorem X_row_fraction_and_forecast_bounds (data : AppData) (res : Maturity.MaturityAnalysisResult)
    (Hres : Maturity.analyzeMaturity data = Some res) :
  forall row, In row (Maturity.dailyProjections res) ->
    (0 <= Maturity.lagPct row <= 1)%Q /\
    (0 <= Maturity.forecastAdd row)%Q /\
    (Maturity.currentRate row <= Maturity.projectedRate row)%Q.
Proof.
  intros row Hin.
  destruct (in_dailyProjections _ _ _ Hres Hin)
    as (orders & t0Time & e & _ & _ & Hrow & _). cbv zeta in Hrow. subst row.
  pose proof (markers_bounds (Lag.lags orders t0Time)) as Hb. cbv zeta in Hb.
  destruct (MaturityFacts.projectDay_spec
              (Lag.markers (Lag.lags orders t0Time))
              (Lag.distribution (Lag.lags orders t0Time)
                 (Lag.p90_value (Lag.markers (Lag.lags orders t0Time))))
              (latestPurchase orders) e)
    as (Hlag & _ & _ & _ & Hgross & Hramp & Hc & Hp). cbv zeta in *.
  set (r := Maturity.projectDay _ _ _ e) in *.
  assert (Hf : (0 <= Maturity.forecastAdd r)%Q /\
               (QN (Maturity.realized r) <= Maturity.projectedTotal r)%Q).
  { destruct (Maturity.phase r) eqn:Eph.
    - destruct (Hramp eq_refl) as [-> ->]. split; [apply Qle_refl|apply Qle_refl].
    - destruct (Hgross ltac:(discriminate)) as [Hf Ht].
      assert (H0 : (0 <= Maturity.forecastAdd r)%Q) by (rewrite Hf; apply MaturityFacts.grossUp_nonneg).
      split; [exact H0|]. rewrite Ht. apply MaturityFacts.Qle_plus_nonneg, H0.
    - destruct (Hgross ltac:(discriminate)) as [Hf Ht].
      assert (H0 : (0 <= Maturity.forecastAdd r)%Q) by (rewrite Hf; apply MaturityFacts.grossUp_nonneg).
      split; [exact H0|]. rewrite Ht. apply MaturityFacts.Qle_plus_nonneg, H0. }
  split; [rewrite Hlag; apply getCumulativePct_range; lia|].
  split; [exact (proj1 Hf)|].
  rewrite Hc, Hp. apply rateOf_mono, (proj2 Hf).
Qed.

Lemma X_row_fraction_and_forecast_bounds_witness :
  exists res row, Maturity.analyzeMaturity Samples.data2 = Some res /\
    In row (Maturity.dailyProjections res) /\
    (0 <= Maturity.lagPct row <= 1)%Q.
Proof.
  eexists. exists {| Maturity.date := 112; Maturity.age := 8;
                     Maturity.phase := Maturity.mature; Maturity.sales := 20;
                     Maturity.realized := 3; Maturity.currentRate := 3 # 20;
                     Maturity.lagPct := 96 # 128; Maturity.algorithm := Maturity.gross_up;
                     Maturity.weight := 1; Maturity.forecastAdd := 96 # 96;
                     Maturity.projectedTotal := 384 # 96;
                     Maturity.projectedRate := 384 # 1920 |}.
  split; [reflexivity|].
  match goal with
  | |- In ?r (Maturity.dailyProjections ?res) /\ _ =>
      assert (Hin : In r (Maturity.dailyProjections res)) by (vm_compute; auto);
      split; [exact Hin|];
      exact (proj1 (X_row_fraction_and_forecast_bounds Samples.data2 res eq_refl r Hin))
  end.
Defined.

Lemma scan_found (L : list RawOrderRow) (total acc : N) (p50 p100 : Z) :
  fst (Timeline.scanTarget L total acc true p50 p100) = p50.
Proof.
  revert acc p100; induction L as [|o L IH]; intros acc p100; simpl; [reflexivity|].
  apply IH.
Qed.

Lemma scan_last (L : list RawOrderRow) (x : RawOrderRow) (total acc : N) (f : bool) (p50 p100 : Z) :
  snd (Timeline.scanTarget (L ++ [x]) total acc f p50 p100) = purchase_date x.
Proof.
  revert acc f p50 p100; induction L as [|o L IH]; intros acc f p50 p100; simpl.
  - destruct (negb f && _)%bool; reflexivity.
  - destruct (negb f && _)%bool; apply IH.
Qed.

Lemma scan_search (L : list RawOrderRow) (total acc : N) (p50 p100 : Z) :
  (2 * acc < total)%N -> (total <= 2 * (acc + sumN (map units_sold L)))%N ->
  exists A o B, L = A ++ o :: B /\
    (2 * (acc + sumN (map units_sold A)) < total)%N /\
    (total <= 2 * (acc + sumN (map units_sold A) + units_sold o))%N /\
    fst (Timeline.scanTarget L total acc false p50 p100) = purchase_date o.
Proof.
  revert acc p50 p100; induction L as [|o L IH]; intros acc p50 p100 H1 H2.
  - unfold sumN in H2. cbn [map fold_right] in H2. lia.
  - cbn [Timeline.scanTarget]. cbn [negb andb]. destruct (total <=? 2 * (acc + units_sold o))%N eqn:E.
    + apply N.leb_le in E. exists [], o, L. split; [reflexivity|].
      unfold sumN; cbn [map fold_right]. split; [lia|]. split; [lia|]. apply scan_found.
    + apply N.leb_gt in E.
      destruct (IH (acc + units_sold o)%N p50 (purchase_date o)) as (A & o' & B & HL & HA & Ho' & Hf);
        [lia|unfold sumN in *; cbn [map fold_right] in H2; lia|].
      exists (o :: A), o', B. split; [rewrite HL; reflexivity|].
      unfold sumN in *; cbn [map fold_right]. split; [lia|]. split; [lia|]. exact Hf.
Qed.

Lemma ssorted_split {A} (R : A -> A -> Prop) (l1 l2 : list A) (x : A) :
  StronglySorted R (l1 ++ x :: l2) ->
  (forall a, In a l1 -> R a x) /\ (forall b, In b l2 -> R x b).
Proof.
  induction l1 as [|y l1 IH]; simpl; intros H.
  - apply StronglySorted_inv in H. destruct H as [_ H]. split; [intros _ []|].
    intros b Hb. rewrite Forall_forall in H. apply H, Hb.
  - apply StronglySorted_inv in H. destruct H as [H Hf]. destruct (IH H) as [H1 H2].
    split; [|exact H2]. intros a [<-|Ha]; [|exact (H1 a Ha)].
    rewrite Forall_forall in Hf. apply Hf, in_or_app. right. left. reflexivity.
Qed.

Lemma filter_all {A} (f : A -> bool) (l : list A) :
  (forall x, In x l -> f x = true) -> filter f l = l.
Proof.
  induction l as [|x l IH]; intros H; simpl; [reflexivity|].
  rewrite (H x (or_introl eq_refl)), IH; [reflexivity|]. intros y Hy. apply H. right. exact Hy.
Qed.

Lemma sumN_filter_le {A} (f : A -> N) (q : A -> bool) (l : list A) :
  (sumN (map f (filter q l)) <= sumN (map f l))%N.
Proof.
  induction l as [|x l IH]; simpl; [lia|].
  destruct (q x); simpl; unfold sumN in *; simpl; lia.
Qed.

Lemma sorted_by_date (l : list RawOrderRow) :
  StronglySorted (fun a b => purchase_date a <= purchase_date b)
    (sort_by (fun a b => purchase_date a - purchase_date b) l).
Proof.
  apply Sorted_StronglySorted; [intros x y z; lia|].
  apply sort_by_sorted; intros x y H; lia.
Qed.

(** The target-date estimator: [daysToWait] is the earliest evaluation time
    minus S; with no cohort volume both anchors stay at T0; otherwise the
    P50 anchor is the purchase date of a cohort order at which the running
    volume (in date order) first reaches half the total, so at least half
    the volume is bought on or before it and less than half before it, the
    P90 anchor is the latest purchase date of the cohort, and when no cohort
    order is after S, [daysToWait] is at most the P50 marker. *)
Theorem X_target_date_estimator (subset : list RawOrderRow) (t0Time sTime : Z) (mk : Lag.Markers) :
  let total := sumN (map units_sold subset) in
  let td := Timeline.targetDates subset t0Time sTime mk in
  let p50 := Timeline.earliestEvalTime td - Lag.d_value mk in
  let p100 := Timeline.p90Time td - Lag.p90_value mk in
  Timeline.daysToWait td = Timeline.earliestEvalTime td - sTime /\
  (total = 0%N -> p50 = t0Time /\ p100 = t0Time) /\
  (total <> 0%N ->
     (exists o, In o subset /\ purchase_date o = p50) /\
     (total <= 2 * sumN (map units_sold (filter (fun o => (purchase_date o <=? p50)%Z) subset)))%N /\
     (2 * sumN (map units_sold (filter (fun o => (purchase_date o <? p50)%Z) subset)) < total)%N /\
     (forall o, In o subset -> purchase_date o <= p100) /\
     (exists o, In o subset /\ purchase_date o = p100) /\
     ((forall o, In o subset -> purchase_date o <= sTime) ->
        Timeline.daysToWait td <= Lag.d_value mk)).
Proof.
  cbv zeta. unfold Timeline.targetDates. rewrite fold_add_sumN, N.add_0_l.
  set (total := sumN (map units_sold subset)).
  set (L := sort_by (fun a b => purchase_date a - purchase_date b) subset).
  assert (HLp : Permutation L subset) by apply sort_by_perm.
  destruct (0 <? total)%N eqn:Ht.
  2: { apply N.ltb_ge in Ht. simpl. split; [reflexivity|]. split; [intros _; split; lia|].
       intros Hne. lia. }
  apply N.ltb_lt in Ht.
  destruct (Timeline.scanTarget L total 0 false t0Time t0Time) as [p50 p100] eqn:Es.
  cbn [Timeline.earliestEvalTime Timeline.p90Time Timeline.daysToWait].
  split; [reflexivity|]. split; [intros H0; lia|]. intros _.
  replace (p50 + Lag.d_value mk - Lag.d_value mk) with p50 by lia.
  replace (p100 + Lag.p90_value mk - Lag.p90_value mk) with p100 by lia.
  assert (HvL : sumN (map units_sold L) = total) by (apply sumN_map_perm, HLp).
  destruct (scan_search L total 0 t0Time t0Time ltac:(lia) ltac:(lia))
    as (A & o & B & HL & HA & Ho & Hf).
  rewrite Es in Hf. simpl in Hf. subst p50.
  pose proof (sorted_by_date subset) as Hss. fold L in Hss.
  destruct (ssorted_split _ A B o ltac:(rewrite <- HL; exact Hss)) as [HA' HB'].
  assert (Hino : In o subset)
    by (apply (Permutation_in _ HLp); rewrite HL; apply in_or_app; right; left; reflexivity).
  assert (Hp100 : (forall o', In o' subset -> purchase_date o' <= p100) /\
                  (exists o', In o' subset /\ purchase_date o' = p100)).
  { assert (HLne : L <> []) by (rewrite HL; destruct A; discriminate).
    destruct (exists_last HLne) as (C & x & HC).
    assert (Hx : snd (Timeline.scanTarget L total 0 false t0Time t0Time) = purchase_date x)
      by (rewrite HC; apply scan_last).
    rewrite Es in Hx. simpl in Hx. subst p100.
    rewrite HC in Hss, HLp.
    destruct (ssorted_split _ C [] x Hss) as [HC' _].
    split.
    - intros o' Hin. apply (Permutation_in _ (Permutation_sym HLp)), in_app_or in Hin.
      destruct Hin as [Hin|[<-|[]]]; [exact (HC' _ Hin)|lia].
    - exists x. split; [|reflexivity]. apply (Permutation_in _ HLp), in_or_app. right. left. reflexivity. }
  split; [exists o; auto|]. split; [|split; [|split; [apply Hp100|split; [apply Hp100|]]]].
  - rewrite <- (sumN_map_perm _ _ _ (MaturityFacts.perm_filter _ _ _ HLp)).
    rewrite HL, filter_app, map_app, ContrastFacts.sumN_app, filter_all.
    + cbn [filter]. rewrite Z.leb_refl. cbn [map]. rewrite ContrastFacts.sumN_cons. lia.
    + intros a Ha. apply Z.leb_le. exact (HA' a Ha).
  - rewrite <- (sumN_map_perm _ _ _ (MaturityFacts.perm_filter _ _ _ HLp)).
    rewrite HL, filter_app, map_app, ContrastFacts.sumN_app. cbn [filter].
    rewrite Z.ltb_irrefl.
    rewrite (sumN_filter_none _ _ B); [|intros b Hb; apply Z.ltb_ge; exact (HB' b Hb)].
    pose proof (sumN_filter_le units_sold (fun o0 => purchase_date o0 <? purchase_date o) A). lia.
  - intros Hle. pose proof (Hle o Hino). lia.
Qed.

Lemma trendGet_add (m : list (Z * (N * N))) (o : RawOrderRow) (d : Z) :
  Timeline.trendGet (Timeline.trendAdd m o) d =
  if purchase_date o =? d
  then ((fst (Timeline.trendGet m d) + units_sold o)%N,
        (snd (Timeline.trendGet m d) + getReturnCount o)%N)
  else Timeline.trendGet m d.
Proof.
  unfold Timeline.trendGet. induction m as [|[k [v r]] m IH]; simpl.
  - destruct (purchase_date o =? d); reflexivity.
  - destruct (k =? purchase_date o) eqn:Ek.
    + apply Z.eqb_eq in Ek. subst k. simpl.
      destruct (purchase_date o =? d); reflexivity.
    + simpl. destruct (k =? d) eqn:Ekd; [|exact IH].
      apply Z.eqb_eq in Ekd. subst k.
      destruct (purchase_date o =? d) eqn:E; [|reflexivity].
      apply Z.eqb_eq in E. lia.
Qed.

Lemma trendGet_fold (l : list RawOrderRow) (m : list (Z * (N * N))) (d : Z) :
  Timeline.trendGet (fold_left Timeline.trendAdd l m) d =
  ((fst (Timeline.trendGet m d) +
    sumN (map units_sold (filter (fun o => (purchase_date o =? d)%Z) l)))%N,
   (snd (Timeline.trendGet m d) +
    sumN (map getReturnCount (filter (fun o => (purchase_date o =? d)%Z) l)))%N).
Proof.
  revert m; induction l as [|x l IH]; intros m; simpl.
  - destruct (Timeline.trendGet m d); simpl. unfold sumN; simpl. f_equal; lia.
  - rewrite IH, trendGet_add.
    destruct (purchase_date x =? d); simpl; rewrite ?ContrastFacts.sumN_cons; f_equal; lia.
Qed.

Lemma sumN_filter_split {A} (f : A -> N) (p q1 q2 : A -> bool) (l : list A) :
  (forall x, p x = true -> q1 x && q2 x = false /\ q1 x || q2 x = true) ->
  (sumN (map f (filter p (filter q1 l ++ filter q2 l))) = sumN (map f (filter p l)))%N.
Proof.
  intros H. rewrite filter_app, map_app, ContrastFacts.sumN_app, !filter_filter_and.
  induction l as [|x l IH]; [reflexivity|]. cbn [filter].
  destruct (p x) eqn:Ep.
  - destruct (H x Ep) as [H1 H2].
    rewrite !andb_true_r.
    destruct (q1 x), (q2 x); try discriminate; cbn [map]; rewrite !ContrastFacts.sumN_cons; lia.
  - rewrite !andb_false_r. exact IH.
Qed.

Lemma trendLoop_spec (m : list (Z * (N * N))) (ts sTime t0Time : Z) (fuel i : nat) :
  (0 < fuel)%nat -> ts + Z.of_nat i + Z.of_nat fuel <= sTime + 1 ->
  Timeline.trendLoop m ts sTime t0Time i fuel =
  map (fun j => trendEntry m (ts + Z.of_nat j) t0Time) (seq i fuel).
Proof.
  revert i; induction fuel as [|f IH]; intros i Hf Hb; [reflexivity|].
  cbn [Timeline.trendLoop seq map].
  replace (ts + Z.of_nat i >? sTime) with false by (symmetry; rewrite Z.gtb_ltb; apply Z.ltb_ge; lia).
  unfold trendEntry. destruct (Timeline.trendGet m (ts + Z.of_nat i)) as [v r].
  f_equal. destruct f as [|f]; [reflexivity|]. apply IH; lia.
Qed.

Lemma nth_error_map_seq {B} (f : nat -> B) (a n i : nat) (e : B) :
  nth_error (map f (seq a n)) i = Some e -> (i < n)%nat /\ e = f (a + i)%nat.
Proof.
  revert a i; induction n as [|n IH]; intros a i H; [destruct i; discriminate|].
  destruct i as [|i]; cbn in H.
  - injection H as <-. rewrite Nat.add_0_r. split; [lia|reflexivity].
  - destruct (IH (S a) i H) as [H1 H2]. split; [lia|]. rewrite H2. f_equal. lia.
Qed.

(** The trend series has [max 0 (min(T0 + span, S + 1) - (T0 - span))]
    entries (the loop never breaks early); entry [i] is day
    [T0 - span + i], never after S, with the volume and returns of all
    orders bought that day, its guarded rate, and [isPost] iff the day is on
    or after T0. *)
Theorem X_trend_series (data : AppData) (orders : list RawOrderRow) (t0Time : Z)
  (Ho : return_order data = Some orders) (Hne : orders <> [])
  (Ht : t0Date data = Some t0Time) :
  let span := Maturity.spanOf (comparisonSpan data) in
  let sTime := latestPurchase orders in
  exists tr, Timeline.trendOf data = Some tr /\
    length tr = Z.to_nat (Z.max 0 (Z.min (t0Time + span) (sTime + 1) - (t0Time - span))) /\
    forall i e, nth_error tr i = Some e ->
      Timeline.tdate e = t0Time - span + Z.of_nat i /\
      Timeline.tdate e <= sTime /\
      Timeline.tvolume e =
        sumN (map units_sold (filter (fun o => (purchase_date o =? Timeline.tdate e)%Z) orders)) /\
      Timeline.treturns e =
        sumN (map getReturnCount (filter (fun o => (purchase_date o =? Timeline.tdate e)%Z) orders)) /\
      Timeline.trate e =
        (if (0 <? Timeline.tvolume e)%N
         then QN (Timeline.treturns e) / QN (Timeline.tvolume e) else 0)%Q /\
      Timeline.isPost e = (t0Time <=? Timeline.tdate e).
Proof.
  cbv zeta. unfold Timeline.trendOf. rewrite Ho, Ht.
  destruct orders as [|o0 os]; [congruence|]. cbv beta iota.
  set (orders := o0 :: os).
  set (span := Maturity.spanOf (comparisonSpan data)).
  set (sTime := latestPurchase orders).
  set (q1 := fun o => (t0Time - span <=? purchase_date o) && (purchase_date o <? t0Time)).
  set (q2 := fun o => (t0Time <=? purchase_date o) && (purchase_date o <? t0Time + span)).
  set (m := fold_left Timeline.trendAdd (filter q1 orders ++ filter q2 orders) []).
  set (n := Z.max 0 (Z.min (t0Time + span) (sTime + 1) - (t0Time - span))).
  destruct (Nat.eq_dec (Z.to_nat n) 0) as [H0|H0].
  { rewrite H0. eexists. split; [reflexivity|]. split; [reflexivity|].
    intros i e He. destruct i; discriminate. }
  rewrite trendLoop_spec by (unfold n in *; rewrite ?Z2Nat.id; lia).
  eexists. split; [reflexivity|]. split; [rewrite length_map, length_seq; reflexivity|].
  intros i e He. apply nth_error_map_seq in He as [Hi ->].
  assert (Hn : Z.of_nat i < n) by (rewrite <- (Z2Nat.id n) by lia; lia).
  set (d := t0Time - span + Z.of_nat (0 + i)).
  assert (Hd : t0Time - span <= d < t0Time + span /\ d <= sTime) by (unfold d, n in *; lia).
  unfold trendEntry. unfold m. rewrite trendGet_fold. cbn [fst snd Timeline.trendGet find].
  rewrite !(sumN_filter_split _ _ q1 q2).
  2, 3: intros o Ho'; apply Z.eqb_eq in Ho'; unfold q1, q2; rewrite Ho';
        destruct (Z.ltb_spec d t0Time); destruct (Z.leb_spec t0Time d);
        destruct (Z.leb_spec (t0Time - span) d); destruct (Z.ltb_spec d (t0Time + span));
        cbn; split; (reflexivity || lia).
  cbn [Timeline.tdate Timeline.tvolume Timeline.treturns Timeline.trate Timeline.isPost].
  split; [unfold d; lia|]. split; [lia|].
  split; [f_equal; f_equal; f_equal; lia|]. split; [reflexivity|]. split; [reflexivity|].
  apply Z.geb_leb.
Qed.

Lemma X_trend_series_witness :
  exists tr, Timeline.trendOf Samples.data1 = Some tr /\ length tr = 48%nat.
Proof.
  destruct (X_trend_series Samples.data1 Samples.orders1 19783 eq_refl
              ltac:(discriminate) eq_refl) as (tr & H1 & H2 & _).
  exists tr. split; [exact H1|]. rewrite H2. vm_compute. reflexivity.
Defined.

Lemma analyzeContrast_unfold (data : AppData) (res : Contrast.ContrastResult) :
  Contrast.analyzeContrast data = Some res ->
  exists orders t0Time,
    return_order data = Some orders /\ t0Date data = Some t0Time /\
    t0Time < latestPurchase orders /\
    Contrast.runDays res = latestPurchase orders - t0Time /\
    Contrast.cs res = latestPurchase orders /\ Contrast.ct0 res = t0Time /\
    Contrast.dailyBreakdown res =
      sort_by (fun a b => Contrast.rdate b - Contrast.rdate a)
        (map (Contrast.rowAt orders t0Time (latestPurchase orders) (Contrast.runDays res))
             (seq 0 (Z.to_nat (Contrast.runDays res)))) /\
    Contrast.deltaRate res =
      (if Qltb 0 (Contrast.crate (Contrast.before res))
       then ((Contrast.crate (Contrast.after res) - Contrast.crate (Contrast.before res))
             / Contrast.crate (Contrast.before res))%Q
       else if Qltb 0 (Contrast.crate (Contrast.after res)) then 1%Q else 0%Q) /\
    Contrast.isImproved res = Qltb (Contrast.deltaRate res) 0.
Proof.
  unfold Contrast.analyzeContrast. intros H.
  destruct (return_order data) as [[|o os]|] eqn:Ho; try discriminate H.
  destruct (t0Date data) as [t0Time|] eqn:Ht; try discriminate H.
  destruct (latestPurchase (o :: os) <=? t0Time) eqn:Hle; [discriminate H|].
  apply Z.leb_gt in Hle.
  exists (o :: os), t0Time. split; [reflexivity|]. split; [reflexivity|]. split; [exact Hle|].
  cbv zeta in H |- *.
  match type of H with
  | context [fold_left ?f ?l ?st0] =>
      destruct (ContrastFacts.loop_fold (o :: os) t0Time (latestPurchase (o :: os))
                  (latestPurchase (o :: os) - (t0Time + 1) + 1) l st0)
        as (H1 & _);
      cbv zeta in H1;
      destruct (fold_left f l st0) as [aS aR bS bR drows aV bV]
  end.
  simpl in H1. injection H as <-. simpl.
  replace (latestPurchase (o :: os) - (t0Time + 1) + 1) with (latestPurchase (o :: os) - t0Time)
    in * by lia.
  rewrite H1. repeat split; reflexivity.
Qed.

Lemma crate_nonneg (r s : N) : (0 <= rateOf (QN r) s)%Q.
Proof.
  unfold rateOf. destruct (s =? 0)%N eqn:E; [apply Qle_refl|].
  apply N.eqb_neq in E. unfold QN.
  apply Qle_shift_div_l; [unfold Qlt; simpl; lia|].
  rewrite Qmult_0_l. unfold Qle; simpl; lia.
Qed.

Lemma Qdiv_neg_iff (x b : Q) : (0 < b)%Q -> ((x / b < 0)%Q <-> (x < 0)%Q).
Proof.
  intros Hb. assert (Hi : (0 < / b)%Q) by (apply Qinv_lt_0_compat, Hb).
  unfold Qdiv. split; intros H.
  - destruct (Qlt_le_dec x 0) as [Hx|Hx]; [exact Hx|].
    exfalso. pose proof (Qmult_le_0_compat x (/ b) Hx (Qlt_le_weak _ _ Hi)). lra.
  - pose proof (Qmult_lt_compat_r x 0 (/ b) Hi H). rewrite Qmult_0_l in H0. exact H0.
Qed.

Lemma Qdiv_ge_m1 (a b : Q) : (0 <= a)%Q -> (0 < b)%Q -> (-1 <= (a - b) / b)%Q.
Proof.
  intros Ha Hb. apply Qle_shift_div_l; [exact Hb|]. lra.
Qed.

(** [isImproved] holds exactly when the after rate is below the before
    rate; [deltaRate] is at least -1; it is the relative change when the
    before rate is positive; and with a zero before rate it is 1 with a
    positive after rate, or 0 with a zero after rate. *)
Theorem X_contrast_delta_and_improved (data : AppData) (res : Contrast.ContrastResult)
    (Hres : Contrast.analyzeContrast data = Some res) :
  let a := Contrast.crate (Contrast.after res) in
  let b := Contrast.crate (Contrast.before res) in
  (Contrast.isImproved res = true <-> (a < b)%Q) /\
  (-1 <= Contrast.deltaRate res)%Q /\
  ((0 < b)%Q -> Contrast.deltaRate res = ((a - b) / b)%Q) /\
  ((b == 0)%Q ->
     (Contrast.deltaRate res = 1%Q /\ (0 < a)%Q) \/ (Contrast.deltaRate res = 0%Q /\ (a == 0)%Q)).
Proof.
  destruct (analyzeContrast_unfold _ _ Hres) as (orders & t0Time & _ & _ & _ & _ & _ & _ & _ & Hd & Hi).
  destruct (ContrastFacts.analyzeContrast_inv _ _ Hres)
    as (orders' & t0' & _ & _ & _ & _ & _ & _ & _ & _ & _ & _ & _ & _ & Ha & Hb & _).
  cbv zeta. rewrite Hi, Hd.
  set (a := Contrast.crate (Contrast.after res)) in *.
  set (b := Contrast.crate (Contrast.before res)) in *.
  assert (Ha0 : (0 <= a)%Q) by (rewrite Ha; apply crate_nonneg).
  assert (Hb0 : (0 <= b)%Q) by (rewrite Hb; apply crate_nonneg).
  destruct (Qltb 0 b) eqn:Eb.
  - apply Qltb_iff in Eb.
    split; [|split; [apply Qdiv_ge_m1; assumption|split; [reflexivity|intros Hz; lra]]].
    rewrite Qltb_iff, Qdiv_neg_iff by exact Eb. split; intros; lra.
  - assert (Hbz : ~ (0 < b)%Q) by (rewrite <- Qltb_iff, Eb; discriminate).
    destruct (Qltb 0 a) eqn:Ea.
    + apply Qltb_iff in Ea.
      split; [split; [discriminate|intros; lra]|].
      split; [unfold Qle; simpl; lia|]. split; [intros; lra|]. intros _. left. split; [reflexivity|exact Ea].
    + assert (Haz : ~ (0 < a)%Q) by (rewrite <- Qltb_iff, Ea; discriminate).
      split; [split; [discriminate|intros; lra]|].
      split; [unfold Qle; simpl; lia|]. split; [intros; lra|]. intros _. right. split; [reflexivity|lra].
Qed.

Lemma X_contrast_delta_and_improved_witness :
  exists res, Contrast.analyzeContrast Samples.data1 = Some res /\
    (Contrast.isImproved res = true <->
     (Contrast.crate (Contrast.after res) < Contrast.crate (Contrast.before res))%Q).
Proof.
  eexists. split; [reflexivity|].
  match goal with
  | |- (Contrast.isImproved ?res = true <-> _) =>
      exact (proj1 (X_contrast_delta_and_improved Samples.data1 res eq_refl))
  end.
Defined.

Lemma sort_desc_rev {A} (key : A -> Z) (l acc : list A) :
  StronglySorted (fun x y => key x < key y) l ->
  (forall y z, In y acc -> In z l -> key y < key z) ->
  fold_left (fun acc x => insert_by (fun a b => key b - key a) x acc) l acc = rev l ++ acc.
Proof.
  revert acc; induction l as [|x l IH]; intros acc Hs Hacc; [reflexivity|].
  inversion Hs as [|? ? Hs' Hx]; subst. simpl.
  assert (E : insert_by (fun a b => key b - key a) x acc = x :: acc).
  { destruct acc as [|y ys]; [reflexivity|]. simpl.
    replace (key y - key x <? 0) with true; [reflexivity|].
    symmetry. apply Z.ltb_lt. pose proof (Hacc y x (or_introl eq_refl) (or_introl eq_refl)). lia. }
  rewrite E, IH; [rewrite <- app_assoc; reflexivity|exact Hs'|].
  intros y z [<-|Hy] Hz.
  - rewrite Forall_forall in Hx. exact (Hx z Hz).
  - exact (Hacc y z Hy (or_intror Hz)).
Qed.

Lemma rev_map_seq {B} (f : nat -> B) (n : nat) :
  rev (map f (seq 0 n)) = map (fun k => f (n - 1 - k)%nat) (seq 0 n).
Proof.
  induction n as [|n IH]; [reflexivity|].
  transitivity (f n :: rev (map f (seq 0 n))).
  { rewrite seq_S, map_app, rev_app_distr. reflexivity. }
  rewrite IH. simpl. f_equal; [f_equal; lia|].
  rewrite <- seq_shift, map_map. apply map_ext_in.
  intros k Hk. apply in_seq in Hk. f_equal. lia.
Qed.

Lemma rowAt_sorted (orders : list RawOrderRow) (t0Time maxTime dc : Z) (a n : nat) :
  StronglySorted (fun x y => Contrast.rdate x < Contrast.rdate y)
    (map (Contrast.rowAt orders t0Time maxTime dc) (seq a n)).
Proof.
  revert a; induction n as [|n IH]; intros a; simpl; constructor; [apply IH|].
  apply Forall_forall. intros y Hy. apply in_map_iff in Hy as (j & <- & Hj).
  apply in_seq in Hj. unfold Contrast.rowAt; simpl. lia.
Qed.

(** The daily breakdown has [runDays] rows, newest first: row [k] is for
    day [S - k], is matched with day [T0 - 1 - k], has age limit [k], and
    carries the sales and returns of the orders bought on its day and the
    sales of the orders bought on its matched day. *)
Theorem X_breakdown_newest_first (data : AppData) (orders : list RawOrderRow)
    (res : Contrast.ContrastResult)
    (Horders : return_order data = Some orders)
    (Hres : Contrast.analyzeContrast data = Some res) :
  Z.of_nat (length (Contrast.dailyBreakdown res)) = Contrast.runDays res /\
  forall (k : nat) row, nth_error (Contrast.dailyBreakdown res) k = Some row ->
    Contrast.rdate row = Contrast.cs res - Z.of_nat k /\
    Contrast.matchedDate row = Contrast.ct0 res - 1 - Z.of_nat k /\
    Contrast.ageLimit row = Z.of_nat k /\
    Contrast.rsales row =
      sumN (map units_sold (filter (fun o => purchase_date o =? Contrast.rdate row) orders)) /\
    Contrast.rreturns row =
      sumN (map getReturnCount (filter (fun o => purchase_date o =? Contrast.rdate row) orders)) /\
    Contrast.refSales row =
      sumN (map units_sold (filter (fun o => purchase_date o =? Contrast.matchedDate row) orders)).
Proof.
  destruct (analyzeContrast_unfold _ _ Hres)
    as (orders' & t0Time & Ho & _ & Hlt & Hrun & Hs & Ht0 & Hb & _).
  rewrite Horders in Ho. injection Ho as <-.
  rewrite Hb. unfold sort_by. rewrite sort_desc_rev; [|apply rowAt_sorted|intros y z []].
  rewrite app_nil_r, rev_map_seq.
  split; [rewrite length_map, length_seq; lia|].
  intros k row Hk. apply nth_error_map_seq in Hk as [Hk ->].
  unfold Contrast.rowAt. cbn [Contrast.rdate Contrast.matchedDate Contrast.ageLimit
                              Contrast.rsales Contrast.rreturns Contrast.refSales].
  rewrite Hs, Ht0.
  assert (Hn : Z.of_nat (Z.to_nat (Contrast.runDays res)) = Contrast.runDays res) by (apply Z2Nat.id; lia).
  rewrite Nat.add_0_l, !Nat2Z.inj_sub by lia.
  split; [lia|]. split; [lia|]. split; [lia|]. repeat split; reflexivity.
Qed.

Lemma X_breakdown_newest_first_witness :
  exists res row, Contrast.analyzeContrast Samples.data1 = Some res /\
    nth_error (Contrast.dailyBreakdown res) 0%nat = Some row /\
    Contrast.rdate row = Contrast.cs res.
Proof.
  eexists. eexists. split; [reflexivity|]. split; [reflexivity|].
  match goal with
  | |- Contrast.rdate ?row = Contrast.cs ?res =>
      pose proof (proj1 (proj2 (X_breakdown_newest_first Samples.data1 Samples.orders1 res
                                  eq_refl eq_refl) 0%nat row eq_refl)) as H
  end.
  rewrite H. simpl. lia.
Defined.

Lemma sumN_filter_or {A} (f : A -> N) (p q1 q2 : A -> bool) (l : list A) :
  (forall x, p x = q1 x || q2 x) -> (forall x, q1 x && q2 x = false) ->
  sumN (map f (filter p l)) = (sumN (map f (filter q1 l)) + sumN (map f (filter q2 l)))%N.
Proof.
  intros Hp Hq. induction l as [|x l IH]; [reflexivity|]. cbn [filter].
  rewrite Hp. specialize (Hq x).
  destruct (q1 x), (q2 x); try discriminate; cbn [orb map]; rewrite ?ContrastFacts.sumN_cons; lia.
Qed.

Lemma sumN_days (f : RawOrderRow -> N) (a : Z) (l : list RawOrderRow) (n : nat) :
  sumN (map (fun i => sumN (map f (filter (fun o => purchase_date o =? a + Z.of_nat i) l)))
            (seq 0 n)) =
  sumN (map f (filter (fun o => (a <=? purchase_date o) && (purchase_date o <? a + Z.of_nat n)) l)).
Proof.
  induction n as [|n IH].
  - symmetry. apply sumN_filter_none. intros o _.
    destruct (Z.leb_spec a (purchase_date o)), (Z.ltb_spec (purchase_date o) (a + 0)); simpl; lia.
  - rewrite seq_S, map_app, ContrastFacts.sumN_app, IH. cbn [map].
    rewrite (sumN_filter_or f (fun o => (a <=? purchase_date o) && (purchase_date o <? a + Z.of_nat (S n)))
               (fun o => (a <=? purchase_date o) && (purchase_date o <? a + Z.of_nat n))
               (fun o => purchase_date o =? a + Z.of_nat n)).
    + cbn [Nat.add]. f_equal. exact (N.add_0_r _).
    + intros o. destruct (Z.leb_spec a (purchase_date o)), (Z.ltb_spec (purchase_date o) (a + Z.of_nat (S n))),
                (Z.ltb_spec (purchase_date o) (a + Z.of_nat n)), (Z.eqb_spec (purchase_date o) (a + Z.of_nat n));
        simpl; lia.
    + intros o. destruct (Z.leb_spec a (purchase_date o)),
                (Z.ltb_spec (purchase_date o) (a + Z.of_nat n)), (Z.eqb_spec (purchase_date o) (a + Z.of_nat n));
        simpl; (reflexivity || lia).
Qed.

Lemma sumN_map_le {A} (f g : A -> N) (l : list A) :
  (forall x, In x l -> (f x <= g x)%N) -> (sumN (map f l) <= sumN (map g l))%N.
Proof.
  induction l as [|x l IH]; intros H; [apply N.le_refl|]. cbn [map].
  rewrite !ContrastFacts.sumN_cons.
  pose proof (H x (or_introl eq_refl)). pose proof (IH (fun y Hy => H y (or_intror Hy))). lia.
Qed.

(** The after totals are the sales and effective returns of the orders
    bought in [(T0, S]]; the before sales are those of the orders bought in
    [[T0 - runDays, T0)], and the before returns never exceed their
    uncensored returns; orders bought on T0 itself count on neither side. *)
Theorem X_contrast_window_totals (data : AppData) (orders : list RawOrderRow)
    (res : Contrast.ContrastResult)
    (Horders : return_order data = Some orders)
    (Hres : Contrast.analyzeContrast data = Some res) :
  let afterWin := fun o => (Contrast.ct0 res <? purchase_date o) && (purchase_date o <=? Contrast.cs res) in
  let beforeWin := fun o => (Contrast.ct0 res - Contrast.runDays res <=? purchase_date o) &&
                            (purchase_date o <? Contrast.ct0 res) in
  Contrast.csales (Contrast.after res) = sumN (map units_sold (filter afterWin orders)) /\
  Contrast.creturns (Contrast.after res) = sumN (map getReturnCount (filter afterWin orders)) /\
  Contrast.csales (Contrast.before res) = sumN (map units_sold (filter beforeWin orders)) /\
  (Contrast.creturns (Contrast.before res) <= sumN (map getReturnCount (filter beforeWin orders)))%N.
Proof.
  destruct (ContrastFacts.analyzeContrast_inv _ _ Hres)
    as (orders' & t0Time & Ho & _ & Hlt & _ & Hrun & Hs & Ht0 & _ & H1 & H2 & H3 & H4 & _).
  rewrite Horders in Ho. injection Ho as <-.
  cbv zeta in *. rewrite H1, H2, H3, H4, Hs, Ht0, !map_map. clear H1 H2 H3 H4.
  set (n := Z.to_nat (Contrast.runDays res)).
  assert (Hn : Z.of_nat n = latestPurchase orders - t0Time) by (unfold n; rewrite Z2Nat.id; lia).
  rewrite Hrun.
  assert (Ea : forall g : RawOrderRow -> N,
    sumN (map (fun i => sumN (map g (filter (fun o => purchase_date o =? t0Time + 1 + Z.of_nat i) orders)))
              (seq 0 n)) =
    sumN (map g (filter (fun o => (t0Time <? purchase_date o) && (purchase_date o <=? latestPurchase orders)) orders))).
  { intros g. rewrite sumN_days. f_equal. f_equal. apply filter_ext. intros o.
    destruct (Z.leb_spec (t0Time + 1) (purchase_date o)), (Z.ltb_spec (purchase_date o) (t0Time + 1 + Z.of_nat n)),
             (Z.ltb_spec t0Time (purchase_date o)), (Z.leb_spec (purchase_date o) (latestPurchase orders));
      simpl; (reflexivity || lia). }
  assert (Eb : forall g : RawOrderRow -> N,
    sumN (map (fun i => sumN (map g (filter (fun o => purchase_date o =?
                 t0Time - (latestPurchase orders - t0Time) + Z.of_nat i) orders))) (seq 0 n)) =
    sumN (map g (filter (fun o => (t0Time - (latestPurchase orders - t0Time) <=? purchase_date o) &&
                                  (purchase_date o <? t0Time)) orders))).
  { intros g. rewrite sumN_days. f_equal. f_equal. apply filter_ext. intros o.
    rewrite Hn. replace (t0Time - (latestPurchase orders - t0Time) + (latestPurchase orders - t0Time))
      with t0Time by lia. reflexivity. }
  unfold Contrast.rowAt. cbn [Contrast.rsales Contrast.rreturns Contrast.refSales Contrast.refReturns].
  split; [apply Ea|]. split; [apply Ea|]. split; [apply Eb|].
  rewrite <- Eb. apply sumN_map_le. intros i _. apply sumN_filter_le.
Qed.

Lemma X_contrast_window_totals_witness :
  exists res, Contrast.analyzeContrast Samples.data1 = Some res /\
    Contrast.csales (Contrast.after res) =
      sumN (map units_sold (filter (fun o => (Contrast.ct0 res <? purchase_date o) &&
                                             (purchase_date o <=? Contrast.cs res)) Samples.orders1)).
Proof.
  eexists. split; [reflexivity|].
  match goal with
  | |- Contrast.csales (Contrast.after ?res) = _ =>
      exact (proj1 (X_contrast_window_totals Samples.data1 Samples.orders1 res eq_refl eq_refl))
  end.
Defined.

Lemma addAt_sum (v : list N) (k : nat) (x : N) :
  (sumN (Contrast.addAt v k x) <= sumN v + x)%N.
Proof.
  revert k; induction v as [|y v IH]; intros k; [simpl; lia|].
  destruct k as [|k]; cbn [Contrast.addAt]; rewrite !ContrastFacts.sumN_cons; [lia|].
  specialize (IH k). lia.
Qed.

Lemma afterPass_vel (os : list RawOrderRow) (dc : Z) (s r : N) (vel : list N) :
  let res := Contrast.afterPass os dc s r vel in
  (sumN (snd res) + r <= sumN vel + snd (fst res))%N.
Proof.
  revert s r vel; induction os as [|o os IH]; intros s r vel; cbn [Contrast.afterPass]; [simpl; lia|].
  destruct (0 <? getReturnCount o)%N; [|apply IH].
  match goal with
  | |- context [Contrast.afterPass os dc ?s1 ?r1 ?v1] =>
      pose proof (IH s1 r1 v1) as H1; cbv zeta in H1
  end.
  destruct (Contrast.getLag o) as [lag|];
    [destruct ((lag >=? 0) && (lag <? dc)); [pose proof (addAt_sum vel (Z.to_nat lag) (getReturnCount o))|]|];
    lia.
Qed.

Lemma beforePass_vel (os : list RawOrderRow) (dc L : Z) (s r : N) (vel : list N) :
  let res := Contrast.beforePass os dc L s r vel in
  (sumN (snd res) + r <= sumN vel + snd (fst res))%N.
Proof.
  revert s r vel; induction os as [|o os IH]; intros s r vel; cbn [Contrast.beforePass]; [simpl; lia|].
  destruct (0 <? getReturnCount o)%N; [|apply IH].
  destruct (Contrast.getLag o) as [lag|]; [|apply IH].
  destruct (lag <=? L); [|apply IH].
  match goal with
  | |- context [Contrast.beforePass os dc L ?s1 ?r1 ?v1] =>
      pose proof (IH s1 r1 v1) as H1; cbv zeta in H1
  end.
  destruct ((lag >=? 0) && (lag <? dc)); [pose proof (addAt_sum vel (Z.to_nat lag) (getReturnCount o))|];
    lia.
Qed.

Lemma loop_vel (orders : list RawOrderRow) (t0Time maxTime dc : Z)
      (l : list nat) (st : Contrast.LoopState) :
  let st' := fold_left (Contrast.loopStep orders t0Time maxTime dc) l st in
  (sumN (Contrast.afterVelocity st') + Contrast.afterTotalReturns st <=
     sumN (Contrast.afterVelocity st) + Contrast.afterTotalReturns st')%N /\
  (sumN (Contrast.beforeVelocity st') + Contrast.beforeTotalReturns st <=
     sumN (Contrast.beforeVelocity st) + Contrast.beforeTotalReturns st')%N.
Proof.
  revert st; induction l as [|i l IH]; intros st; cbv zeta; cbn [fold_left]; [lia|].
  destruct (IH (Contrast.loopStep orders t0Time maxTime dc st i)) as [IH1 IH2].
  cbv zeta in IH1, IH2.
  set (st1 := Contrast.loopStep orders t0Time maxTime dc st i) in *.
  assert (K : (sumN (Contrast.afterVelocity st1) + Contrast.afterTotalReturns st <=
                 sumN (Contrast.afterVelocity st) + Contrast.afterTotalReturns st1)%N /\
              (sumN (Contrast.beforeVelocity st1) + Contrast.beforeTotalReturns st <=
                 sumN (Contrast.beforeVelocity st) + Contrast.beforeTotalReturns st1)%N).
  { unfold st1, Contrast.loopStep.
    match goal with
    | |- context [Contrast.afterPass ?os ?d ?s0 ?r0 ?v0] =>
        pose proof (afterPass_vel os d s0 r0 v0) as A; cbv zeta in A;
        destruct (Contrast.afterPass os d s0 r0 v0) as [[sa ra] av]
    end.
    match goal with
    | |- context [Contrast.beforePass ?os ?d ?L ?s0 ?r0 ?v0] =>
        pose proof (beforePass_vel os d L s0 r0 v0) as B; cbv zeta in B;
        destruct (Contrast.beforePass os d L s0 r0 v0) as [[sb rb] bv]
    end.
    cbn [fst snd Contrast.afterVelocity Contrast.beforeVelocity
         Contrast.afterTotalReturns Contrast.beforeTotalReturns] in *.
    split; lia. }
  split; lia.
Qed.

Lemma velocityLoop_length (aS bS : N) (aV bV : list N) (d : nat) (cA cB : N) (fuel : nat) :
  length (Contrast.velocityLoop aS bS aV bV d cA cB fuel) = fuel.
Proof.
  revert d cA cB; induction fuel as [|f IH]; intros d cA cB; [reflexivity|].
  cbn [Contrast.velocityLoop length]. rewrite IH. reflexivity.
Qed.

Lemma velocityLoop_nth (aS bS : N) (aV bV : list N) (d : nat) (cA cB : N) (fuel j : nat)
      (p : Contrast.VelocityPoint) :
  nth_error (Contrast.velocityLoop aS bS aV bV d cA cB fuel) j = Some p ->
  Contrast.vday p = Z.of_nat (d + j) /\
  Contrast.afterRate p = rateOf (QN (cA + cumVel aV d j)) aS /\
  Contrast.beforeRate p = rateOf (QN (cB + cumVel bV d j)) bS.
Proof.
  revert d cA cB j; induction fuel as [|f IH]; intros d cA cB j H; [destruct j; discriminate|].
  cbn [Contrast.velocityLoop] in H. destruct j as [|j].
  - injection H as <-. cbn [Contrast.vday Contrast.afterRate Contrast.beforeRate].
    rewrite !MaturityFacts.guard_rateOf. unfold cumVel. cbn [seq map].
    rewrite !(ContrastFacts.sumN_cons _ []). change (sumN []) with 0%N.
    rewrite !N.add_0_r, Nat.add_0_r. repeat split.
  - destruct (IH _ _ _ _ H) as (H1 & H2 & H3). rewrite H1, H2, H3.
    unfold cumVel. cbn [seq map]. rewrite !ContrastFacts.sumN_cons, !N.add_assoc.
    split; [f_equal; lia|]. split; reflexivity.
Qed.

Lemma sumN_zeros {A} (l : list A) : sumN (map (fun _ => 0%N) l) = 0%N.
Proof. induction l as [|x l IH]; [reflexivity|]. cbn [map]. rewrite ContrastFacts.sumN_cons, IH. reflexivity. Qed.

Lemma sumN_repeat0 (n : nat) : sumN (repeat 0%N n) = 0%N.
Proof. induction n as [|n IH]; [reflexivity|]. cbn [repeat]. rewrite ContrastFacts.sumN_cons, IH. reflexivity. Qed.

Lemma prefix_le (v : list N) (m : nat) :
  (sumN (map (fun k => nth k v 0%N) (seq 0 m)) <= sumN v)%N.
Proof.
  revert m; induction v as [|x v IH]; intros m.
  - replace (map (fun k => nth k [] 0%N) (seq 0 m)) with (map (fun _ : nat => 0%N) (seq 0 m))
      by (apply map_ext; intros [|k]; reflexivity).
    rewrite sumN_zeros. apply N.le_refl.
  - destruct m as [|m]; [apply N.le_0_l|].
    cbn [seq map]. rewrite <- seq_shift, map_map, !ContrastFacts.sumN_cons.
    specialize (IH m). cbn [nth]. lia.
Qed.

Lemma cumVel_step (v : list N) (j : nat) : (cumVel v 0 j <= cumVel v 0 (S j))%N.
Proof.
  unfold cumVel. rewrite (seq_S (S j)), map_app, ContrastFacts.sumN_app. lia.
Qed.

Lemma QN_le (a b : N) : (a <= b)%N -> (QN a <= QN b)%Q.
Proof. intros H. unfold QN. rewrite <- Zle_Qle. lia. Qed.

Lemma analyzeContrast_velocity (data : AppData) (res : Contrast.ContrastResult) :
  Contrast.analyzeContrast data = Some res ->
  exists aV bV,
    Contrast.velocityChart res =
      Contrast.velocityLoop (Contrast.csales (Contrast.after res)) (Contrast.csales (Contrast.before res))
                            aV bV 0 0 0 (Z.to_nat (Contrast.runDays res)) /\
    (sumN aV <= Contrast.creturns (Contrast.after res))%N /\
    (sumN bV <= Contrast.creturns (Contrast.before res))%N.
Proof.
  unfold Contrast.analyzeContrast. intros H.
  destruct (return_order data) as [[|o os]|] eqn:Ho; try discriminate H.
  destruct (t0Date data) as [t0Time|] eqn:Ht; try discriminate H.
  destruct (latestPurchase (o :: os) <=? t0Time) eqn:Hle; [discriminate H|].
  cbv zeta in H.
  match type of H with
  | context [fold_left ?f ?l ?st0] =>
      destruct (loop_vel (o :: os) t0Time (latestPurchase (o :: os))
                  (latestPurchase (o :: os) - (t0Time + 1) + 1) l st0) as [K1 K2];
      cbv zeta in K1, K2;
      destruct (fold_left f l st0) as [aS aR bS bR drows aV bV]
  end.
  cbn [Contrast.afterVelocity Contrast.beforeVelocity
       Contrast.afterTotalReturns Contrast.beforeTotalReturns] in K1, K2.
  rewrite sumN_repeat0 in K1, K2.
  injection H as <-. exists aV, bV. cbn. split; [reflexivity|]. split; lia.
Qed.

(** The velocity chart has [runDays] points; point [j] is day [j], its two
    rates lie between 0 and the after and before rates, and neither rate
    ever decreases from one point to the next. *)
Theorem X_velocity_chart (data : AppData) (res : Contrast.ContrastResult)
    (Hres : Contrast.analyzeContrast data = Some res) :
  length (Contrast.velocityChart res) = Z.to_nat (Contrast.runDays res) /\
  (forall (j : nat) p, nth_error (Contrast.velocityChart res) j = Some p ->
     Contrast.vday p = Z.of_nat j /\
     (0 <= Contrast.afterRate p <= Contrast.crate (Contrast.after res))%Q /\
     (0 <= Contrast.beforeRate p <= Contrast.crate (Contrast.before res))%Q) /\
  (forall (j : nat) p q, nth_error (Contrast.velocityChart res) j = Some p ->
     nth_error (Contrast.velocityChart res) (S j) = Some q ->
     (Contrast.afterRate p <= Contrast.afterRate q)%Q /\
     (Contrast.beforeRate p <= Contrast.beforeRate q)%Q).
Proof.
  destruct (analyzeContrast_velocity _ _ Hres) as (aV & bV & Hv & Ha & Hb).
  destruct (ContrastFacts.analyzeContrast_inv _ _ Hres)
    as (orders & t0Time & _ & _ & _ & _ & _ & _ & _ & _ & _ & _ & _ & _ & Hra & Hrb & _).
  rewrite Hv. split; [apply velocityLoop_length|]. split.
  - intros j p Hp. destruct (velocityLoop_nth _ _ _ _ _ _ _ _ _ _ Hp) as (H1 & H2 & H3).
    rewrite H1, H2, H3, Hra, Hrb. split; [reflexivity|].
    split; split; try apply crate_nonneg; apply rateOf_mono, QN_le;
      [pose proof (prefix_le aV (S j))|pose proof (prefix_le bV (S j))]; unfold cumVel; lia.
  - intros j p q Hp Hq.
    destruct (velocityLoop_nth _ _ _ _ _ _ _ _ _ _ Hp) as (_ & Hp2 & Hp3).
    destruct (velocityLoop_nth _ _ _ _ _ _ _ _ _ _ Hq) as (_ & Hq2 & Hq3).
    rewrite Hp2, Hp3, Hq2, Hq3.
    split; apply rateOf_mono, QN_le; pose proof (cumVel_step aV j); pose proof (cumVel_step bV j); lia.
Qed.

Lemma X_velocity_chart_witness :
  exists res, Contrast.analyzeContrast Samples.data1 = Some res /\
    length (Contrast.velocityChart res) = Z.to_nat (Contrast.runDays res).
Proof.
  eexists. split; [reflexivity|].
  match goal with
  | |- length (Contrast.velocityChart ?res) = _ =>
      exact (proj1 (X_velocity_chart Samples.data1 res eq_refl))
  end.
Defined.
